(** * Cosmic Atlas: the vendor API clients and the ISS polling page

    A shallow embedding of
    - [packages/backend/src/services/nasa.ts]         (class [NASAClient]),
    - [packages/backend/src/services/spaceWeather.ts] (class [SpaceWeatherClient]),
    - [packages/frontend/app/iss/page.tsx]            (component [ISSPage]),
    and the properties of the specification that concern them. *)

From Stdlib Require Import Ascii String ZArith.
From stdpp Require Import base strings gmap list pretty.

Set Warnings "-register-all".
Open Scope string_scope.

(** * The host language

    What the code takes from the JavaScript runtime rather than from the
    repository: the [number] type with its literals, its rendering in a
    template literal and its truthiness, the case mappings of [String], the
    clock behind [Date.now()] and the state of the outside world that the
    asynchronous calls read and change. *)

Class Host := {
  number : Type;
  number_eq_dec :: EqDecision number;
  (** integer literals, such as [1000] *)
  of_Z : Z → number;
  (** the literal [0.025] *)
  lit_0_025 : number;
  (** [`${n}`] *)
  NumberToString : number → string;
  (** truthiness of a number: false on [0] and [NaN] only *)
  NumberToBoolean : number → bool;
  toUpperCase : string → string;
  toLowerCase : string → string;
  World : Type;
  Date_now : World → number * World;
}.

(** Lower-case ASCII letters, and their absence from a string. *)
Definition is_lower_ascii (c : ascii) : bool :=
  let n := nat_of_ascii c in (97 <=? n)%nat && (n <=? 122)%nat.

Fixpoint occurs (c : ascii) (s : string) : bool :=
  match s with
  | EmptyString => false
  | String d s' => if decide (c = d) then true else occurs c s'
  end.

Fixpoint has_lower_ascii (s : string) : bool :=
  match s with
  | EmptyString => false
  | String c s' => is_lower_ascii c || has_lower_ascii s'
  end.

(** The facts about the runtime that some properties rest on. Numbers are
    taken up to the identification of [+0] with [-0], under which rendering
    is one-to-one; a rendered number is made of digits, a sign, a point, an
    exponent mark or the letters of [Infinity] and [NaN]; upper-casing
    leaves no lower-case ASCII letter behind. *)
Definition rendering_is_injective (H : Host) : Prop :=
  ∀ a b : number, NumberToString a = NumberToString b → a = b.

Definition rendering_has_no_colon (H : Host) : Prop :=
  ∀ a : number, occurs ":" (NumberToString a) = false.

Definition upper_case_has_no_lower (H : Host) : Prop :=
  ∀ s, has_lower_ascii (toUpperCase s) = false.

(** * Values and promises *)

Section Values.
Context {H : Host}.

(** [string | number | undefined]: query parameters and the operands of the
    [||] chains in the cache keys. *)
Inductive prim :=
  | Undefined
  | Num (n : number)
  | Str (s : string).

Global Instance prim_eq_dec : EqDecision prim.
Proof. solve_decision. Defined.

Definition ToBoolean (p : prim) : bool :=
  match p with
  | Undefined => false
  | Num n => NumberToBoolean n
  | Str s => negb (bool_decide (s = ""))
  end.

(** [a || b] *)
Definition or_else (a b : prim) : prim := if ToBoolean a then a else b.

(** [`${p}`] *)
Definition ToString (p : prim) : string :=
  match p with
  | Undefined => "undefined"
  | Num n => NumberToString n
  | Str s => s
  end.

(** An optional argument: absent is [undefined]. *)
Definition arg_str (o : option string) : prim := from_option Str Undefined o.
Definition arg_num (o : option number) : prim := from_option Num Undefined o.

(** [any]: what a JSON body or an envelope's payload can hold. The fields of
    an object are listed with the binding that a property read finds first. *)
Inductive value :=
  | VUndefined
  | VNull
  | VBool (b : bool)
  | VNum (n : number)
  | VStr (s : string)
  | VArr (items : list value)
  | VObj (fields : list (string * value)).

(** ** Promises *)

Inductive Completion (A : Type) : Type :=
  | Fulfilled (a : A)
  | Rejected (reason : value).
Global Arguments Fulfilled {A} a.
Global Arguments Rejected {A} reason.

(** An asynchronous computation, awaited: it runs against the world and
    either fulfils or rejects. *)
Definition Async (A : Type) : Type := World → Completion A * World.

Global Instance Async_ret : MRet Async := λ A a w, (Fulfilled a, w).

Global Instance Async_bind : MBind Async := λ A B k m w,
  match m w with
  | (Fulfilled a, w') => k a w'
  | (Rejected r, w') => (Rejected r, w')
  end.

(** [Date.now()] *)
Definition now : Async number := λ w, let '(t, w') := Date_now w in (Fulfilled t, w').

(** [Promise.all([p, q])]: both are started, in order, and run to their end;
    the result rejects when one of them does. The world is threaded through
    them one after the other, which is one of the schedules the event loop
    allows. *)
Definition Promise_all2 {A B} (p : Async A) (q : Async B) : Async (A * B) := λ w,
  let '(a, w1) := p w in
  let '(b, w2) := q w1 in
  match a, b with
  | Fulfilled a, Fulfilled b => (Fulfilled (a, b), w2)
  | Rejected r, _ => (Rejected r, w2)
  | _, Rejected r => (Rejected r, w2)
  end.

Definition Promise_all4 {A B C D} (p : Async A) (q : Async B) (r : Async C) (s : Async D)
  : Async (A * B * C * D) := λ w,
  let '(a, w1) := p w in
  let '(b, w2) := q w1 in
  let '(c, w3) := r w2 in
  let '(d, w4) := s w3 in
  match a, b, c, d with
  | Fulfilled a, Fulfilled b, Fulfilled c, Fulfilled d => (Fulfilled (a, b, c, d), w4)
  | Rejected x, _, _, _ => (Rejected x, w4)
  | _, Rejected x, _, _ => (Rejected x, w4)
  | _, _, Rejected x, _ => (Rejected x, w4)
  | _, _, _, Rejected x => (Rejected x, w4)
  end.

End Values.

(** * The backend clients *)

Section Clients.
Context {H : Host}.

(** ** The response envelope, [APIResponse<T>] of [@cosmic-atlas/shared] *)

Record ErrorInfo := { code : string; message : string }.

Record Metadata := { source : string; timestamp : number; cached : bool }.

Record APIResponse := {
  success : bool;
  data : option value;
  error : option ErrorInfo;
  metadata : Metadata;
}.

(** Reading [r.data]: an absent field reads as [undefined]. *)
Definition get_data (r : APIResponse) : value := default VUndefined (data r).

(** ** The collaborators: [../config] and the base class [APIClient] *)

Record Config := {
  apiKeys_nasa : string;
  ttl_apod : number;
  ttl_mars : number;
  ttl_neo : number;
  ttl_earth : number;
  ttl_spaceWeather : number;
}.

(** The arguments of [super(name, baseURL, defaultTTL)]. *)
Record APIClient := { name : string; baseURL : string; defaultTTL : number }.

(** The request options: [{}] or [{ params }]. *)
Record Options := { params : option (gmap string prim) }.

Class Collaborators := {
  config : Config;
  (** [this.cachedGet(path, options, cacheKey, ttl)] of the base class *)
  cachedGet : APIClient → string → Options → string → number → Async APIResponse;
}.
Context {collaborators : Collaborators}.

(** * [NASAClient] *)

(** [super('NASA', 'https://api.nasa.gov', config.cache.ttl.apod)] *)
Definition NASAClient : APIClient :=
  {| name := "NASA"; baseURL := "https://api.nasa.gov"; defaultTTL := ttl_apod config |}.

(** [if (c) params[k] = v] *)
Definition set_if (c : bool) (k : string) (v : prim) (m : gmap string prim) : gmap string prim :=
  if c then <[k := v]> m else m.

(** ** [getAPOD(date?)] *)

Definition getAPOD_params (date : option string) : gmap string prim :=
  let params := {[ "api_key" := Str (apiKeys_nasa config) ]} in
  set_if (ToBoolean (arg_str date)) "date" (arg_str date) params.

(** [`apod:${date || 'today'}`] *)
Definition getAPOD_cacheKey (date : option string) : string :=
  "apod:" +:+ ToString (or_else (arg_str date) (Str "today")).

Definition getAPOD (date : option string) : Async APIResponse :=
  cachedGet NASAClient "/planetary/apod"
    {| params := Some (getAPOD_params date) |}
    (getAPOD_cacheKey date)
    (ttl_apod config).

(** ** [getMarsPhotos(rover, sol?, earthDate?, camera?)] *)

Definition getMarsPhotos_params (sol : option number) (earthDate camera : option string)
  : gmap string prim :=
  let params := {[ "api_key" := Str (apiKeys_nasa config) ]} in
  let params :=
    match sol with
    | Some sol => <["sol" := Num sol]> params
    | None =>
        if ToBoolean (arg_str earthDate)
        then <["earth_date" := arg_str earthDate]> params
        else <["sol" := Num (of_Z 1000)]> params
    end in
  set_if (ToBoolean (arg_str camera)) "camera" (arg_str camera) params.

(** [`mars:${rover}:${sol || earthDate || 'default'}:${camera || 'all'}`] *)
Definition getMarsPhotos_cacheKey (rover : string) (sol : option number)
    (earthDate camera : option string) : string :=
  "mars:" +:+ rover +:+ ":"
    +:+ ToString (or_else (or_else (arg_num sol) (arg_str earthDate)) (Str "default"))
    +:+ ":" +:+ ToString (or_else (arg_str camera) (Str "all")).

Definition getMarsPhotos (rover : string) (sol : option number)
    (earthDate camera : option string) : Async APIResponse :=
  cachedGet NASAClient
    ("/mars-photos/api/v1/rovers/" +:+ toLowerCase rover +:+ "/photos")
    {| params := Some (getMarsPhotos_params sol earthDate camera) |}
    (getMarsPhotos_cacheKey rover sol earthDate camera)
    (ttl_mars config).

(** ** [getNearEarthObjects(startDate, endDate)] *)

Definition getNearEarthObjects (startDate endDate : string) : Async APIResponse :=
  let params : gmap string prim :=
    <["end_date" := Str endDate]> (<["start_date" := Str startDate]>
      {[ "api_key" := Str (apiKeys_nasa config) ]}) in
  cachedGet NASAClient "/neo/rest/v1/feed"
    {| params := Some params |}
    ("neo:" +:+ startDate +:+ ":" +:+ endDate)
    (ttl_neo config).

(** ** [getEarthImagery(lat, lon, date?, dim = 0.025)] *)

Definition getEarthImagery_params (lat lon : number) (date : option string)
    (dim : option number) : gmap string prim :=
  let dim := default lit_0_025 dim in
  let params : gmap string prim :=
    <["dim" := Num dim]> (<["lon" := Num lon]> (<["lat" := Num lat]>
      {[ "api_key" := Str (apiKeys_nasa config) ]})) in
  set_if (ToBoolean (arg_str date)) "date" (arg_str date) params.

(** [`earth-imagery:${lat}:${lon}:${date || 'latest'}`] *)
Definition getEarthImagery_cacheKey (lat lon : number) (date : option string)
    (dim : option number) : string :=
  "earth-imagery:" +:+ NumberToString lat +:+ ":" +:+ NumberToString lon
    +:+ ":" +:+ ToString (or_else (arg_str date) (Str "latest")).

Definition getEarthImagery (lat lon : number) (date : option string)
    (dim : option number) : Async APIResponse :=
  cachedGet NASAClient "/planetary/earth/imagery"
    {| params := Some (getEarthImagery_params lat lon date dim) |}
    (getEarthImagery_cacheKey lat lon date dim)
    (ttl_earth config).

(** ** [getDONKIEvents(type, startDate, endDate)] *)

(** The own properties of the object literal [typeMap]. *)
Definition typeMap : gmap string string :=
  list_to_map [("FLR", "FLR"); ("SEP", "SEP"); ("CME", "CME"); ("IPS", "IPS");
               ("MPC", "MPC"); ("GST", "GST"); ("RBE", "RBE"); ("HSS", "HSS")].

(** An object literal also answers for the members of [Object.prototype].
    Each of them is an object, hence truthy; what is kept of it is the text
    a template literal makes of it. *)
Definition Object_prototype_methods : list string :=
  ["__defineGetter__"; "__defineSetter__"; "hasOwnProperty"; "__lookupGetter__";
   "__lookupSetter__"; "isPrototypeOf"; "propertyIsEnumerable"; "toString";
   "valueOf"; "toLocaleString"].

Definition Object_prototype_member (k : string) : option string :=
  if bool_decide (k = "constructor") then Some "function Object() { [native code] }"
  else if bool_decide (k = "__proto__") then Some "[object Object]"
  else if bool_decide (k ∈ Object_prototype_methods)
       then Some ("function " +:+ k +:+ "() { [native code] }")
  else None.

(** [typeMap[k]] *)
Definition typeMap_get (k : string) : prim :=
  match typeMap !! k with
  | Some v => Str v
  | None => arg_str (Object_prototype_member k)
  end.

(** [typeMap[type.toUpperCase()] || 'FLR'] *)
Definition eventType (type : string) : string :=
  ToString (or_else (typeMap_get (toUpperCase type)) (Str "FLR")).

Definition getDONKIEvents_path (type : string) : string := "/DONKI/" +:+ eventType type.

Definition getDONKIEvents (type startDate endDate : string) : Async APIResponse :=
  let params : gmap string prim :=
    <["endDate" := Str endDate]> (<["startDate" := Str startDate]>
      {[ "api_key" := Str (apiKeys_nasa config) ]}) in
  cachedGet NASAClient (getDONKIEvents_path type)
    {| params := Some params |}
    ("donki:" +:+ eventType type +:+ ":" +:+ startDate +:+ ":" +:+ endDate)
    (ttl_spaceWeather config).

(** * [SpaceWeatherClient] *)

(** [super('NOAA-SWPC', 'https://services.swpc.noaa.gov', config.cache.ttl.spaceWeather)] *)
Definition SpaceWeatherClient : APIClient :=
  {| name := "NOAA-SWPC"; baseURL := "https://services.swpc.noaa.gov";
     defaultTTL := ttl_spaceWeather config |}.

Definition AURORA_FORECAST_ERROR : ErrorInfo :=
  {| code := "AURORA_FORECAST_ERROR"; message := "Failed to fetch aurora forecast" |}.

Definition SPACE_WEATHER_ERROR : ErrorInfo :=
  {| code := "SPACE_WEATHER_ERROR";
     message := "Failed to fetch complete space weather data" |}.

Definition aurora_north : Async APIResponse :=
  cachedGet SpaceWeatherClient "/products/aurora-forecast-northern-hemisphere.json"
    {| params := None |} "aurora-north" (ttl_spaceWeather config).

Definition aurora_south : Async APIResponse :=
  cachedGet SpaceWeatherClient "/products/aurora-forecast-southern-hemisphere.json"
    {| params := None |} "aurora-south" (ttl_spaceWeather config).

Definition getAuroraForecast : Async APIResponse :=
  '(north, south) ← Promise_all2 aurora_north aurora_south;
  if negb (success north) || negb (success south) then
    t ← now;
    mret {| success := false;
            data := None;
            error := Some AURORA_FORECAST_ERROR;
            metadata := {| source := "NOAA-SWPC"; timestamp := t; cached := false |} |}
  else
    t ← now;
    mret {| success := true;
            data := Some (VObj [("north", get_data north); ("south", get_data south)]);
            error := None;
            metadata := {| source := "NOAA-SWPC"; timestamp := t; cached := false |} |}.

Definition getSolarWind : Async APIResponse :=
  cachedGet SpaceWeatherClient "/products/solar-wind/mag-1-day.json"
    {| params := None |} "solar-wind" (ttl_spaceWeather config).

Definition getGeomagneticActivity : Async APIResponse :=
  cachedGet SpaceWeatherClient "/products/noaa-planetary-k-index.json"
    {| params := None |} "kp-index" (ttl_spaceWeather config).

Definition get3DayForecast : Async APIResponse :=
  cachedGet SpaceWeatherClient "/products/3-day-forecast.json"
    {| params := None |} "forecast-3day" (ttl_spaceWeather config).

(** The four DONKI shorthands go through [this.nasaClient]. *)
Definition getSolarFlares (startDate endDate : string) : Async APIResponse :=
  getDONKIEvents "FLR" startDate endDate.

Definition getCMEs (startDate endDate : string) : Async APIResponse :=
  getDONKIEvents "CME" startDate endDate.

Definition getGeomagneticStorms (startDate endDate : string) : Async APIResponse :=
  getDONKIEvents "GST" startDate endDate.

Definition getSEPEvents (startDate endDate : string) : Async APIResponse :=
  getDONKIEvents "SEP" startDate endDate.

Definition getSpaceWeatherSummary : Async APIResponse :=
  '(solarWind, geomagActivity, aurora, forecast) ←
    Promise_all4 getSolarWind getGeomagneticActivity getAuroraForecast get3DayForecast;
  if negb (success solarWind) || negb (success geomagActivity)
     || negb (success aurora) || negb (success forecast) then
    t ← now;
    mret {| success := false;
            data := None;
            error := Some SPACE_WEATHER_ERROR;
            metadata := {| source := "NOAA-SWPC"; timestamp := t; cached := false |} |}
  else
    t_data ← now;
    t_meta ← now;
    mret {| success := true;
            data := Some (VObj [("solarWind", get_data solarWind);
                                ("geomagneticActivity", get_data geomagActivity);
                                ("auroraForecast", get_data aurora);
                                ("forecast3Day", get_data forecast);
                                ("timestamp", VNum t_data)]);
            error := None;
            metadata := {| source := "NOAA-SWPC"; timestamp := t_meta; cached := false |} |}.

(** ** The operations of the two clients, as one type *)

Inductive Operation :=
  | GetAPOD (date : option string)
  | GetMarsPhotos (rover : string) (sol : option number) (earthDate camera : option string)
  | GetNearEarthObjects (startDate endDate : string)
  | GetEarthImagery (lat lon : number) (date : option string) (dim : option number)
  | GetDONKIEvents (type startDate endDate : string)
  | GetAuroraForecast
  | GetSolarWind
  | GetGeomagneticActivity
  | Get3DayForecast
  | GetSolarFlares (startDate endDate : string)
  | GetCMEs (startDate endDate : string)
  | GetGeomagneticStorms (startDate endDate : string)
  | GetSEPEvents (startDate endDate : string)
  | GetSpaceWeatherSummary.

Definition call (op : Operation) : Async APIResponse :=
  match op with
  | GetAPOD date => getAPOD date
  | GetMarsPhotos rover sol earthDate camera => getMarsPhotos rover sol earthDate camera
  | GetNearEarthObjects s e => getNearEarthObjects s e
  | GetEarthImagery lat lon date dim => getEarthImagery lat lon date dim
  | GetDONKIEvents type s e => getDONKIEvents type s e
  | GetAuroraForecast => getAuroraForecast
  | GetSolarWind => getSolarWind
  | GetGeomagneticActivity => getGeomagneticActivity
  | Get3DayForecast => get3DayForecast
  | GetSolarFlares s e => getSolarFlares s e
  | GetCMEs s e => getCMEs s e
  | GetGeomagneticStorms s e => getGeomagneticStorms s e
  | GetSEPEvents s e => getSEPEvents s e
  | GetSpaceWeatherSummary => getSpaceWeatherSummary
  end.

End Clients.

(** * The ISS page, [packages/frontend/app/iss/page.tsx] *)

Module ISSPage.
Section Page.
Context {H : Host}.

(** ** Reading a parsed JSON body *)

Definition TypeError : value := VStr "TypeError".

Fixpoint assoc (k : string) (fields : list (string * value)) : option value :=
  match fields with
  | [] => None
  | (k', v) :: rest => if decide (k = k') then Some v else assoc k rest
  end.

(** [v[k]] or [v.k], for the keys the page reads ([success], [data],
    [people], [craft]), none of which a built-in prototype defines: reading
    from [null] or [undefined] throws, an object answers with its own
    property, anything else with [undefined]. *)
Definition Get (v : value) (k : string) : Completion value :=
  match v with
  | VUndefined | VNull => Rejected TypeError
  | VObj fields => Fulfilled (default VUndefined (assoc k fields))
  | _ => Fulfilled VUndefined
  end.

(** [if (v)] *)
Definition truthy (v : value) : bool :=
  match v with
  | VUndefined | VNull => false
  | VBool b => b
  | VNum n => NumberToBoolean n
  | VStr s => negb (bool_decide (s = ""))
  | VArr _ | VObj _ => true
  end.

(** [v === 'ISS'] *)
Definition is_ISS (v : value) : bool :=
  match v with
  | VStr s => bool_decide (s = "ISS")
  | _ => false
  end.

Global Instance Completion_ret : MRet Completion := λ A a, Fulfilled a.

Global Instance Completion_bind : MBind Completion := λ A B k m,
  match m with
  | Fulfilled a => k a
  | Rejected r => Rejected r
  end.

(** [items.filter(keep)], with a callback that may throw. *)
Fixpoint Array_filter (keep : value → Completion bool) (items : list value)
  : Completion (list value) :=
  match items with
  | [] => Fulfilled []
  | p :: rest =>
      b ← keep p;
      kept ← Array_filter keep rest;
      mret (if b : bool then p :: kept else kept)
  end.

(** [people.filter((p: Astronaut) => p.craft === 'ISS')]: only an array has
    a [filter] to call. *)
Definition filter_ISS (people : value) : Completion (list value) :=
  match people with
  | VArr items => Array_filter (λ p, craft ← Get p "craft"; mret (is_ISS craft)) items
  | _ => Rejected TypeError
  end.

(** ** The component's state and its setters *)

Record State := {
  position : value;
  astronauts : list value;
  loading : bool;
  error : option string;
}.

(** The four [useState] initial values. *)
Definition initial : State :=
  {| position := VNull; astronauts := []; loading := true; error := None |}.

Inductive SetState :=
  | setPosition (v : value)
  | setAstronauts (l : list value)
  | setLoading (b : bool)
  | setError (e : option string).

Definition apply (st : State) (u : SetState) : State :=
  match u with
  | setPosition v =>
      {| position := v; astronauts := astronauts st; loading := loading st; error := error st |}
  | setAstronauts l =>
      {| position := position st; astronauts := l; loading := loading st; error := error st |}
  | setLoading b =>
      {| position := position st; astronauts := astronauts st; loading := b; error := error st |}
  | setError e =>
      {| position := position st; astronauts := astronauts st; loading := loading st; error := e |}
  end.

Definition run (updates : list SetState) (st : State) : State := foldl apply st updates.

(** ** The network, as one poll cycle meets it *)

(** What [await res.json()] comes to. *)
Record Response := { json : Completion value }.

(** What [await fetch(url)] comes to. *)
Definition Network : Type := string → Completion Response.

(** ** [fetchData] *)

(** A run of the handler: how it completes, and the setter calls it made on
    the way, in order. *)
Definition Handler (A : Type) : Type := Completion A * list SetState.

Global Instance Handler_ret : MRet Handler := λ A a, (Fulfilled a, []).

Global Instance Handler_bind : MBind Handler := λ A B k m,
  match m with
  | (Fulfilled a, calls) => let '(b, calls') := k a in (b, (calls ++ calls')%list)
  | (Rejected r, calls) => (Rejected r, calls)
  end.

Definition await {A} (c : Completion A) : Handler A := (c, []).

Definition set (u : SetState) : Handler unit := (Fulfilled (), [u]).

(** [try { body } catch (err) { handler }] *)
Definition try_catch {A} (body : Handler A) (handler : value → Handler A) : Handler A :=
  match body with
  | (Fulfilled a, calls) => (Fulfilled a, calls)
  | (Rejected err, calls) => let '(b, calls') := handler err in (b, (calls ++ calls')%list)
  end.

Definition position_url : string := "http://localhost:3001/api/iss/position".
Definition astronauts_url : string := "http://localhost:3001/api/iss/astronauts".
Definition load_failure : string := "Failed to load ISS data".

(** The [try] block. *)
Definition fetchData_try (fetch : Network) : Handler unit :=
  posRes ← await (fetch position_url);
  posData ← await (json posRes);
  ok ← await (Get posData "success");
  _ ← (if truthy ok
       then d ← await (Get posData "data"); set (setPosition d)
       else mret ());
  astroRes ← await (fetch astronauts_url);
  astroData ← await (json astroRes);
  ok ← await (Get astroData "success");
  _ ← (if truthy ok
       then d ← await (Get astroData "data");
            people ← await (Get d "people");
            crew ← await (filter_ISS people);
            set (setAstronauts crew)
       else mret ());
  set (setLoading false).

Definition fetchData (fetch : Network) : Handler unit :=
  try_catch (fetchData_try fetch)
    (λ err, _ ← set (setError (Some load_failure)); set (setLoading false)).

(** The setter calls of one poll cycle, and the state after them. *)
Definition calls (fetch : Network) : list SetState := snd (fetchData fetch).

Definition tick (fetch : Network) (st : State) : State := run (calls fetch) st.

(** The poll cycles of [setInterval], one after the other. *)
Definition ticks (fetches : list Network) (st : State) : State :=
  foldl (λ st fetch, tick fetch st) st fetches.

(** A setter call that some poll cycle can make. *)
Definition emitted (u : SetState) : Prop := ∃ fetch, u ∈ calls fetch.

(** Whether the [try] block of a cycle throws. *)
Definition throws (fetch : Network) : bool :=
  match fst (fetchData_try fetch) with
  | Fulfilled _ => false
  | Rejected _ => true
  end.

(** ** The shape of a body *)

Definition nullish (v : value) : bool :=
  match v with
  | VUndefined | VNull => true
  | _ => false
  end.

(** The value of [v.k] when reading it does not throw. *)
Definition prop (v : value) (k : string) : value :=
  match v with
  | VObj fields => default VUndefined (assoc k fields)
  | _ => VUndefined
  end.



(** A network on which both requests succeed: the position is [d] and one
    astronaut is on board. *)
Definition an_astronaut : value := VObj [("name", VStr "A"); ("craft", VStr "ISS")].

Definition healthy (d : value) : Network := λ url,
  Fulfilled {| json := Fulfilled
    (if bool_decide (url = position_url)
     then VObj [("success", VBool true); ("data", d)]
     else VObj [("success", VBool true);
                ("data", VObj [("people", VArr [an_astronaut])])]) |}.

End Page.
End ISSPage.

(** * A host to compute with

    Integers and the one fraction the source names for numbers, ASCII case
    mappings for strings, a counter for the clock. *)

Module Sample.

Inductive num :=
  | Int (z : Z)
  | Frac_0_025.

Global Instance num_eq_dec : EqDecision num.
Proof. solve_decision. Defined.

Definition render (n : num) : string :=
  match n with
  | Int z => pretty z
  | Frac_0_025 => "0.025"
  end.

(** The characters of a rendered integer. *)
Definition numeric (c : ascii) : bool :=
  bool_decide (c ∈ list_ascii_of_string "-0123456789").

Fixpoint all_numeric (s : string) : bool :=
  match s with
  | EmptyString => true
  | String c s' => numeric c && all_numeric s'
  end.

Definition nonzero (n : num) : bool :=
  match n with
  | Int z => negb (bool_decide (z = 0%Z))
  | Frac_0_025 => true
  end.

Definition is_upper_ascii (c : ascii) : bool :=
  let n := nat_of_ascii c in (65 <=? n)%nat && (n <=? 90)%nat.

Definition upper (c : ascii) : ascii :=
  if is_lower_ascii c then ascii_of_nat (nat_of_ascii c - 32) else c.

Definition lower (c : ascii) : ascii :=
  if is_upper_ascii c then ascii_of_nat (nat_of_ascii c + 32) else c.

Fixpoint map_string (f : ascii → ascii) (s : string) : string :=
  match s with
  | EmptyString => EmptyString
  | String c s' => String (f c) (map_string f s')
  end.

Definition host : Host :=
  {| number := num;
     of_Z := Int;
     lit_0_025 := Frac_0_025;
     NumberToString := render;
     NumberToBoolean := nonzero;
     toUpperCase := map_string upper;
     toLowerCase := map_string lower;
     World := Z;
     Date_now := λ w, (Int w, (w + 1)%Z) |}.

(** The numbers of the sample host, at the type the clients expect. *)
Definition int (z : Z) : @number host := Int z.
Definition frac_0_025 : @number host := Frac_0_025.

Definition sample_config : @Config host :=
  @Build_Config host "DEMO_KEY" (Int 86400) (Int 3600) (Int 3600) (Int 86400) (Int 300).

(** A base client that answers every call at once, with a failure envelope
    for the cache keys listed in [failing] and a success envelope carrying
    the path for the others; the keys listed in [hits] are served from the
    cache. *)
Definition sample_cachedGet (failing hits : list string) (client : @APIClient host)
    (path : string) (options : @Options host) (cacheKey : string) (ttl : num)
  : @Async host (@APIResponse host) := λ w,
  let meta := @Build_Metadata host (name client) (Int w) (bool_decide (cacheKey ∈ hits)) in
  (Fulfilled
     (if bool_decide (cacheKey ∈ failing)
      then @Build_APIResponse host false None
             (Some {| code := "HTTP_ERROR"; message := "upstream" |}) meta
      else @Build_APIResponse host true (Some (VStr path)) None meta),
   (w + 1)%Z).

Definition collaborators (failing hits : list string) : @Collaborators host :=
  @Build_Collaborators host sample_config (sample_cachedGet failing hits).

(** A base client whose every call rejects. *)
Definition rejecting : @Collaborators host :=
  @Build_Collaborators host sample_config
    (λ _ _ _ _ _ w, (Rejected (@VStr host "ECONNRESET"), w)).

(** Bodies and networks for the ISS page. *)
Definition body (fields : list (string * @value host)) : @ISSPage.Response host :=
  ISSPage.Build_Response (Fulfilled (VObj fields)).

Definition serve (pos astro : @Completion host (@ISSPage.Response host))
  : @ISSPage.Network host :=
  λ url, if bool_decide (url = ISSPage.position_url) then pos else astro.

Definition offline : @ISSPage.Network host := λ _, Rejected (VStr "Failed to fetch").

Definition a_position : @value host :=
  VObj [("latitude", @VNum host (Int 51)); ("longitude", @VNum host (Int 0))].

End Sample.

(** * What the specification asks of the code *)

Section Requirements.
Context {H : Host}.

(** Exactly one of [data] and [error] is present, and [success] says which. *)
Definition well_formed (r : APIResponse) : Prop :=
  if success r
  then is_Some (data r) ∧ error r = None
  else data r = None ∧ is_Some (error r).

(** The failure envelopes of the two composite operations, built at time [t]. *)
Definition failure_envelope (e : ErrorInfo) (t : number) : APIResponse :=
  {| success := false; data := None; error := Some e;
     metadata := {| source := "NOAA-SWPC"; timestamp := t; cached := false |} |}.

(** The success envelopes of the two composite operations. *)
Definition aurora_envelope (north south : APIResponse) (t : number) : APIResponse :=
  {| success := true;
     data := Some (VObj [("north", get_data north); ("south", get_data south)]);
     error := None;
     metadata := {| source := "NOAA-SWPC"; timestamp := t; cached := false |} |}.

Definition summary_envelope (solarWind geomagActivity aurora forecast : APIResponse)
    (t_data t_meta : number) : APIResponse :=
  {| success := true;
     data := Some (VObj [("solarWind", get_data solarWind);
                         ("geomagneticActivity", get_data geomagActivity);
                         ("auroraForecast", get_data aurora);
                         ("forecast3Day", get_data forecast);
                         ("timestamp", VNum t_data)]);
     error := None;
     metadata := {| source := "NOAA-SWPC"; timestamp := t_meta; cached := false |} |}.

(** The base client never rejects. *)
Definition never_rejects {C : Collaborators} : Prop :=
  ∀ client path options cacheKey ttl w,
    ∃ r w', cachedGet client path options cacheKey ttl w = (Fulfilled r, w').

(** The eight event types of DONKI. *)
Definition allow_list : list string :=
  ["FLR"; "SEP"; "CME"; "IPS"; "MPC"; "GST"; "RBE"; "HSS"].

(** A string without [':'], the separator of the cache keys. *)
Definition colon_free (s : string) : Prop := occurs ":" s = false.

(** A [sol] that is either absent or truthy (neither [0] nor [NaN]). *)
Definition absent_or_truthy (sol : option number) : Prop :=
  match sol with
  | Some n => NumberToBoolean n = true
  | None => True
  end.

(** [`${date || fallback}`] *)
Definition date_or (fallback : string) (date : option string) : string :=
  ToString (or_else (arg_str date) (Str fallback)).

(** [`${sol || earthDate || 'default'}`] *)
Definition sol_or_date (sol : option number) (earthDate : option string) : string :=
  ToString (or_else (or_else (arg_num sol) (arg_str earthDate)) (Str "default")).

End Requirements.

(** * The remaining pieces of the requests, by name *)

Section Calls.
Context {H : Host} {C : Collaborators}.

(** [`/mars-photos/api/v1/rovers/${rover.toLowerCase()}/photos`] *)
Definition getMarsPhotos_path (rover : string) : string :=
  "/mars-photos/api/v1/rovers/" +:+ toLowerCase rover +:+ "/photos".

(** [`neo:${startDate}:${endDate}`] *)
Definition getNearEarthObjects_cacheKey (startDate endDate : string) : string :=
  "neo:" +:+ startDate +:+ ":" +:+ endDate.

(** [`donki:${eventType}:${startDate}:${endDate}`] *)
Definition getDONKIEvents_cacheKey (type startDate endDate : string) : string :=
  "donki:" +:+ eventType type +:+ ":" +:+ startDate +:+ ":" +:+ endDate.

(** [m], run against [w], rejects. *)
Definition rejects {A} (m : Async A) (w : World) : Prop :=
  ∃ reason w', m w = (Rejected reason, w').

End Calls.

(** * What [ISSPage] returns *)

Module ISSView.
Section View.
Context {H : Host}.
Import ISSPage.

(** The formatting the page asks of the runtime: [n.toFixed(digits)], and
    [new Date(v * 1000).toLocaleTimeString()] for a [v] that [v * 1000] can
    turn into a number ([Invalid Date] when that number is not a time). *)
Class Formatting := {
  toFixed : number → nat → string;
  timeText : value → string;
}.
Context {F : Formatting}.

(** [v.toFixed(digits)]: only a number has a [toFixed] to call. *)
Definition call_toFixed (v : value) (digits : nat) : Completion string :=
  match v with
  | VNum n => Fulfilled (toFixed n digits)
  | _ => Rejected TypeError
  end.

(** [s.split(' ')], for any separator character. *)
Fixpoint split (sep : ascii) (s : string) : list string :=
  match s with
  | EmptyString => [EmptyString]
  | String c s' =>
      if decide (c = sep) then EmptyString :: split sep s'
      else match split sep s' with
           | w :: ws => String c w :: ws
           | [] => [String c EmptyString]
           end
  end.

(** [n[0]], as [join] renders it: nothing for the empty string. *)
Definition first_letter (n : string) : string :=
  match n with
  | EmptyString => EmptyString
  | String c _ => String c EmptyString
  end.

(** [name.split(' ').map(n => n[0]).join('')] *)
Definition initials (name : string) : string :=
  String.concat "" (first_letter <$> split " " name).

(** The texts of the position card. *)
Record PositionCard := {
  latitude : string;
  longitude : string;
  altitude : string;
  velocity : string;
  updated : string;
}.

(** Whether [v * 1000] gets a primitive out of [v]. A primitive is one. A
    parsed object falls back on [Object.prototype.toString] unless it has a
    [toString] of its own, which, coming from JSON, cannot be called: then
    the conversion throws. An array is joined, which converts each entry
    other than [null] in the same way. *)
Fixpoint converts (v : value) : bool :=
  match v with
  | VObj fields =>
      match assoc "toString" fields with
      | Some _ => false
      | None => true
      end
  | VArr items => forallb converts items
  | _ => true
  end.

(** [new Date(v * 1000).toLocaleTimeString()] *)
Definition time_text (v : value) : Completion string :=
  if converts v then Fulfilled (timeText v) else Rejected TypeError.

Definition position_card (position : value) : Completion PositionCard :=
  lat ← Get position "latitude";
  lat ← call_toFixed lat 4;
  lon ← Get position "longitude";
  lon ← call_toFixed lon 4;
  alt ← Get position "altitude";
  alt ← call_toFixed alt 2;
  vel ← Get position "velocity";
  vel ← call_toFixed vel 2;
  t ← Get position "timestamp";
  t ← time_text t;
  mret {| latitude := lat; longitude := lon; altitude := alt; velocity := vel;
          updated := t |}.

(** The two numbers of the caption under the map. *)
Record Caption := { caption_latitude : string; caption_longitude : string }.

Definition caption (position : value) : Completion Caption :=
  lat ← Get position "latitude";
  lat ← call_toFixed lat 2;
  lon ← Get position "longitude";
  lon ← call_toFixed lon 2;
  mret {| caption_latitude := lat; caption_longitude := lon |}.

(** [{position && (...)}]: a falsy position stands there itself. *)
Inductive Guarded (A : Type) : Type :=
  | Falsy (v : value)
  | Shown (a : A).
Global Arguments Falsy {A} v.
Global Arguments Shown {A} a.

Definition guarded {A} (position : value) (body : value → Completion A)
  : Completion (Guarded A) :=
  if truthy position
  then a ← body position; mret (Shown a)
  else mret (Falsy position).

(** One entry of the astronaut list: the initials, then [{astronaut.name}]
    and [{astronaut.craft}] as they are. *)
Record Row := { row_initials : string; row_name : value; row_craft : value }.

Definition astronaut_row (astronaut : value) : Completion Row :=
  name ← Get astronaut "name";
  match name with
  | VStr s =>
      craft ← Get astronaut "craft";
      mret {| row_initials := initials s; row_name := name; row_craft := craft |}
  | _ => Rejected TypeError
  end.

(** [astronauts.map(...)], with a callback that may throw. *)
Fixpoint Array_map {A} (f : value → Completion A) (items : list value)
  : Completion (list A) :=
  match items with
  | [] => Fulfilled []
  | x :: rest =>
      y ← f x;
      ys ← Array_map f rest;
      mret (y :: ys)
  end.

Inductive View :=
  | LoadingView
  | ErrorView (message : string)
  | MainView (card : Guarded PositionCard) (count : nat) (rows : list Row)
             (under_map : Guarded Caption).

(** The three [return]s of the component. *)
Definition render (st : State) : Completion View :=
  if loading st then Fulfilled LoadingView
  else
    match error st with
    | Some message =>
        if bool_decide (message = "") then
          card ← guarded (position st) position_card;
          rows ← Array_map astronaut_row (astronauts st);
          under_map ← guarded (position st) caption;
          mret (MainView card (length (astronauts st)) rows under_map)
        else Fulfilled (ErrorView message)
    | None =>
        card ← guarded (position st) position_card;
        rows ← Array_map astronaut_row (astronauts st);
        under_map ← guarded (position st) caption;
        mret (MainView card (length (astronauts st)) rows under_map)
    end.

(** A position that the card can show: falsy, or with numbers at
    [latitude], [longitude], [altitude] and [velocity] and a [timestamp]
    that converts. *)
Definition is_number (v : value) : bool :=
  match v with
  | VNum _ => true
  | _ => false
  end.

Definition showable_position (position : value) : bool :=
  negb (truthy position) ||
  (is_number (prop position "latitude") && is_number (prop position "longitude") &&
   is_number (prop position "altitude") && is_number (prop position "velocity") &&
   converts (prop position "timestamp")).

(** An astronaut that the list can show: its [name] is a string. *)
Definition showable_astronaut (astronaut : value) : bool :=
  match prop astronaut "name" with
  | VStr _ => true
  | _ => false
  end.

(** The row of an astronaut whose [name] is the string [name]. *)
Definition row_of (astronaut : value) (row : Row) : Prop :=
  ∃ name, prop astronaut "name" = VStr name ∧
    row = {| row_initials := initials name; row_name := VStr name;
             row_craft := prop astronaut "craft" |}.

(** The number of separators in a text. *)
Fixpoint count_char (c : ascii) (s : string) : nat :=
  match s with
  | EmptyString => 0
  | String d s' => (if decide (d = c) then 1 else 0) + count_char c s'
  end.

End View.
End ISSView.

(** * Formatting for the sample host

    Whole numbers are printed with zeros after the point; [0.025] is printed
    as JavaScript rounds it. A number is read as seconds and shown as the
    time of day on a 24-hour clock; this sample does not parse other values
    and shows [Invalid Date] for them. *)

Module SampleView.
Import Sample.

Fixpoint zeros (n : nat) : string :=
  match n with
  | O => ""
  | S n => String "0" (zeros n)
  end.

Definition sample_toFixed (n : num) (digits : nat) : string :=
  match n with
  | Int z => if (digits =? 0)%nat then pretty z else pretty z +:+ "." +:+ zeros digits
  | Frac_0_025 =>
      match digits with
      | 0 => "0"
      | 1 => "0.0"
      | 2 => "0.03"
      | S (S (S k)) => "0.025" +:+ zeros k
      end
  end.

Definition two_digits (z : Z) : string :=
  if bool_decide (z < 10)%Z then "0" +:+ pretty z else pretty z.

Definition clock (seconds : Z) : string :=
  let s := (seconds `mod` 86400)%Z in
  two_digits (s `div` 3600) +:+ ":" +:+ two_digits ((s `mod` 3600) `div` 60)
    +:+ ":" +:+ two_digits (s `mod` 60).

Definition sample_timeText (v : @value host) : string :=
  match v with
  | VNum (Int z) => clock z
  | VNum Frac_0_025 => clock 0
  | _ => "Invalid Date"
  end.

Definition formatting : @ISSView.Formatting host :=
  @ISSView.Build_Formatting host sample_toFixed sample_timeText.

(** A complete position, and a crew list with one astronaut elsewhere. *)
Definition full_position : @value host :=
  VObj [("latitude", @VNum host (Int 51)); ("longitude", @VNum host (Int 0));
        ("altitude", @VNum host (Int 408)); ("velocity", @VNum host (Int 8));
        ("timestamp", @VNum host (Int 3661))].

Definition two_crews : list (@value host) :=
  [VObj [("name", VStr "Ada Lovelace"); ("craft", VStr "ISS")];
   VObj [("name", VStr "Bo"); ("craft", VStr "Tiangong")]].

Definition crew_body : @ISSPage.Response host :=
  body [("success", VBool true); ("data", VObj [("people", VArr two_crews)])].

Definition position_body (d : @value host) : @ISSPage.Response host :=
  body [("success", VBool true); ("data", d)].

End SampleView.

(** * The composite operations of [SpaceWeatherClient] *)

Section Composite.
Context {H : Host} {C : Collaborators}.

Ltac run_async :=
  unfold mbind, mret, Async_bind, Async_ret, Promise_all2, Promise_all4, now.

(** What [getAuroraForecast] returns, from what its two fetches return. *)
Lemma getAuroraForecast_run w north wn south ws :
  aurora_north w = (Fulfilled north, wn) →
  aurora_south wn = (Fulfilled south, ws) →
  getAuroraForecast w =
    (Fulfilled (if success north && success south
                then aurora_envelope north south (Date_now ws).1
                else failure_envelope AURORA_FORECAST_ERROR (Date_now ws).1),
     (Date_now ws).2).
Proof.
  intros Hn Hs. unfold getAuroraForecast. run_async. rewrite Hn, Hs.
  destruct (success north), (success south); simpl;
    destruct (Date_now ws); reflexivity.
Qed.

(** [getAuroraForecast] fulfils only if both fetches did. *)
Lemma getAuroraForecast_inv w r w' :
  getAuroraForecast w = (Fulfilled r, w') →
  ∃ north wn south ws,
    aurora_north w = (Fulfilled north, wn) ∧ aurora_south wn = (Fulfilled south, ws).
Proof.
  unfold getAuroraForecast. run_async.
  destruct (aurora_north w) as [[north|x] wn] eqn:Hn;
    destruct (aurora_south wn) as [[south|y] ws] eqn:Hs; try discriminate.
  intros _. by exists north, wn, south, ws.
Qed.

(** What [getSpaceWeatherSummary] returns, from what its four fetches return. *)
Lemma getSpaceWeatherSummary_run w solarWind w1 geomag w2 aurora w3 forecast w4 :
  getSolarWind w = (Fulfilled solarWind, w1) →
  getGeomagneticActivity w1 = (Fulfilled geomag, w2) →
  getAuroraForecast w2 = (Fulfilled aurora, w3) →
  get3DayForecast w3 = (Fulfilled forecast, w4) →
  getSpaceWeatherSummary w =
    if success solarWind && success geomag && success aurora && success forecast
    then (Fulfilled (summary_envelope solarWind geomag aurora forecast
                       (Date_now w4).1 (Date_now (Date_now w4).2).1),
          (Date_now (Date_now w4).2).2)
    else (Fulfilled (failure_envelope SPACE_WEATHER_ERROR (Date_now w4).1),
          (Date_now w4).2).
Proof.
  intros H1 H2 H3 H4. unfold getSpaceWeatherSummary. run_async.
  rewrite H1, H2, H3, H4.
  destruct (success solarWind), (success geomag), (success aurora), (success forecast);
    simpl; destruct (Date_now w4) as [t w5]; simpl; try reflexivity.
  destruct (Date_now w5); reflexivity.
Qed.

Lemma getSpaceWeatherSummary_inv w r w' :
  getSpaceWeatherSummary w = (Fulfilled r, w') →
  ∃ solarWind w1 geomag w2 aurora w3 forecast w4,
    getSolarWind w = (Fulfilled solarWind, w1) ∧
    getGeomagneticActivity w1 = (Fulfilled geomag, w2) ∧
    getAuroraForecast w2 = (Fulfilled aurora, w3) ∧
    get3DayForecast w3 = (Fulfilled forecast, w4).
Proof.
  unfold getSpaceWeatherSummary. run_async.
  destruct (getSolarWind w) as [[a|?] w1] eqn:H1;
    destruct (getGeomagneticActivity w1) as [[b|?] w2] eqn:H2;
    destruct (getAuroraForecast w2) as [[c|?] w3] eqn:H3;
    destruct (get3DayForecast w3) as [[d|?] w4] eqn:H4; try discriminate.
  intros _. by exists a, w1, b, w2, c, w3, d, w4.
Qed.

(** Under a base client that never rejects, every operation fulfils. *)
Lemma call_fulfils (op : Operation) (w : World) :
  never_rejects → ∃ r w', call op w = (Fulfilled r, w').
Proof.
  intros total.
  assert (∀ w, ∃ r w', getAuroraForecast w = (Fulfilled r, w')) as aurora.
  { intros w0.
    destruct (total SpaceWeatherClient
                "/products/aurora-forecast-northern-hemisphere.json"
                {| params := None |} "aurora-north" (ttl_spaceWeather config) w0)
      as (north & wn & Hn).
    destruct (total SpaceWeatherClient
                "/products/aurora-forecast-southern-hemisphere.json"
                {| params := None |} "aurora-south" (ttl_spaceWeather config) wn)
      as (south & ws & Hs).
    rewrite (getAuroraForecast_run _ _ _ _ _ Hn Hs). eauto. }
  destruct op; simpl; try apply total; try apply aurora.
  destruct (total SpaceWeatherClient "/products/solar-wind/mag-1-day.json"
              {| params := None |} "solar-wind" (ttl_spaceWeather config) w)
    as (a & w1 & H1).
  destruct (total SpaceWeatherClient "/products/noaa-planetary-k-index.json"
              {| params := None |} "kp-index" (ttl_spaceWeather config) w1)
    as (b & w2 & H2).
  destruct (aurora w2) as (c & w3 & H3).
  destruct (total SpaceWeatherClient "/products/3-day-forecast.json"
              {| params := None |} "forecast-3day" (ttl_spaceWeather config) w3)
    as (d & w4 & H4).
  rewrite (getSpaceWeatherSummary_run _ _ _ _ _ _ _ _ _ H1 H2 H3 H4).
  destruct (_ && _); eauto.
Qed.

(** C1. [getSpaceWeatherSummary] succeeds exactly when its four constituent
    fetches (solar wind, geomagnetic activity, aurora forecast, 3-day
    forecast) all return success envelopes. When one of them returns a
    failure envelope the result is the failure envelope with the fixed error
    [SPACE_WEATHER_ERROR]: it has no data, and apart from the time it is
    built it is the same whichever fetch failed. *)
Theorem getSpaceWeatherSummary_all_or_nothing
    w solarWind w1 geomag w2 aurora w3 forecast w4 :
  getSolarWind w = (Fulfilled solarWind, w1) →
  getGeomagneticActivity w1 = (Fulfilled geomag, w2) →
  getAuroraForecast w2 = (Fulfilled aurora, w3) →
  get3DayForecast w3 = (Fulfilled forecast, w4) →
  ∃ r w', getSpaceWeatherSummary w = (Fulfilled r, w') ∧
    (success r = true ↔
       success solarWind = true ∧ success geomag = true ∧
       success aurora = true ∧ success forecast = true) ∧
    (success solarWind = false ∨ success geomag = false ∨
     success aurora = false ∨ success forecast = false →
       r = failure_envelope SPACE_WEATHER_ERROR (Date_now w4).1 ∧
       data r = None ∧
       code <$> error r = Some "SPACE_WEATHER_ERROR").
Proof.
  intros H1 H2 H3 H4.
  rewrite (getSpaceWeatherSummary_run _ _ _ _ _ _ _ _ _ H1 H2 H3 H4).
  destruct (success solarWind), (success geomag), (success aurora), (success forecast);
    simpl; eexists _, _; (split; [reflexivity|]); simpl;
    (split; [split; [try discriminate; tauto | intros (?&?&?&?); congruence] |]);
    intros; try (repeat split; reflexivity).
  repeat match goal with Hor : _ ∨ _ |- _ => destruct Hor end; discriminate.
Qed.

(** C2. [getAuroraForecast] returns the success envelope holding both
    hemisphere results exactly when the northern and the southern fetch both
    return success envelopes; when either returns a failure envelope the
    result is the failure envelope with the fixed error
    [AURORA_FORECAST_ERROR] and no data. *)
Theorem getAuroraForecast_all_or_nothing w north wn south ws :
  aurora_north w = (Fulfilled north, wn) →
  aurora_south wn = (Fulfilled south, ws) →
  ∃ r w', getAuroraForecast w = (Fulfilled r, w') ∧
    (success r = true ↔ success north = true ∧ success south = true) ∧
    (success north = true → success south = true →
       r = aurora_envelope north south (Date_now ws).1 ∧
       data r = Some (VObj [("north", get_data north); ("south", get_data south)])) ∧
    (success north = false ∨ success south = false →
       r = failure_envelope AURORA_FORECAST_ERROR (Date_now ws).1 ∧
       data r = None ∧
       code <$> error r = Some "AURORA_FORECAST_ERROR").
Proof.
  intros Hn Hs. rewrite (getAuroraForecast_run _ _ _ _ _ Hn Hs).
  destruct (success north), (success south); simpl; eexists _, _;
    (split; [reflexivity|]); simpl;
    (split; [split; [try discriminate; tauto | intros (?&?); congruence] |]);
    (split; [intros; try discriminate; try (split; reflexivity) |]);
    intros; try (repeat split; reflexivity).
  repeat match goal with Hor : _ ∨ _ |- _ => destruct Hor end; discriminate.
Qed.

(** C6. Every envelope that the clients build themselves (the results of
    [getAuroraForecast] and of [getSpaceWeatherSummary]) has exactly one of
    [data] and [error], as its [success] tag says: a success envelope carries
    data and metadata, a failure envelope carries an error and metadata. *)
Theorem constructed_envelopes_well_formed w r w' :
  getAuroraForecast w = (Fulfilled r, w') ∨
  getSpaceWeatherSummary w = (Fulfilled r, w') →
  well_formed r.
Proof.
  intros [Hr|Hr].
  - destruct (getAuroraForecast_inv _ _ _ Hr) as (north & wn & south & ws & Hn & Hs).
    rewrite (getAuroraForecast_run _ _ _ _ _ Hn Hs) in Hr.
    injection Hr as <- _. unfold well_formed.
    destruct (_ && _); simpl; eauto.
  - destruct (getSpaceWeatherSummary_inv _ _ _ Hr)
      as (a & w1 & b & w2 & c & w3 & d & w4 & H1 & H2 & H3 & H4).
    rewrite (getSpaceWeatherSummary_run _ _ _ _ _ _ _ _ _ H1 H2 H3 H4) in Hr.
    unfold well_formed.
    destruct (_ && _); injection Hr as <- _; simpl; eauto.
Qed.

(** C7. As long as [cachedGet] itself never rejects, no operation of
    [NASAClient] or [SpaceWeatherClient] throws or rejects: each one fulfils
    with an envelope, whose [success] tag the caller has to inspect. *)
Theorem operations_never_reject (op : Operation) (w : World) :
  never_rejects → ∃ r w', call op w = (Fulfilled r, w').
Proof. apply call_fulfils. Qed.

(** C9. Every envelope returned by [getAuroraForecast] or by
    [getSpaceWeatherSummary], success or failure, has [cached: false] and
    [source: 'NOAA-SWPC'] in its metadata, whatever the base client answered
    and whether or not it answered from its cache. *)
Theorem composite_metadata_fixed w r w' :
  getAuroraForecast w = (Fulfilled r, w') ∨
  getSpaceWeatherSummary w = (Fulfilled r, w') →
  cached (metadata r) = false ∧ source (metadata r) = "NOAA-SWPC".
Proof.
  intros [Hr|Hr].
  - destruct (getAuroraForecast_inv _ _ _ Hr) as (north & wn & south & ws & Hn & Hs).
    rewrite (getAuroraForecast_run _ _ _ _ _ Hn Hs) in Hr.
    injection Hr as <- _. destruct (_ && _); simpl; eauto.
  - destruct (getSpaceWeatherSummary_inv _ _ _ Hr)
      as (a & w1 & b & w2 & c & w3 & d & w4 & H1 & H2 & H3 & H4).
    rewrite (getSpaceWeatherSummary_run _ _ _ _ _ _ _ _ _ H1 H2 H3 H4) in Hr.
    destruct (_ && _); injection Hr as <- _; simpl; eauto.
Qed.

End Composite.

(** * The requests of [NASAClient] *)

Section Requests.
Context {H : Host} {C : Collaborators}.

(** The own properties of [typeMap] are the eight event types, each mapped
    to itself. *)
Lemma typeMap_lookup (k : string) :
  typeMap !! k = if bool_decide (k ∈ allow_list) then Some k else None.
Proof.
  unfold typeMap, allow_list. simpl.
  repeat (rewrite lookup_insert; case_decide; [subst k; reflexivity|]).
  rewrite lookup_empty, bool_decide_eq_false_2; [done|].
  intros Hin. repeat (apply elem_of_cons in Hin as [->|Hin]; [done|]).
  by apply elem_of_nil in Hin.
Qed.

(** Every member of [Object.prototype] has a lower-case letter in its name. *)
Lemma Object_prototype_member_lower (k : string) :
  has_lower_ascii k = false → Object_prototype_member k = None.
Proof.
  intros Hk. unfold Object_prototype_member.
  do 2 (case_bool_decide; [subst k; discriminate Hk|]).
  case_bool_decide as Hm; [|done].
  unfold Object_prototype_methods in Hm.
  repeat (apply elem_of_cons in Hm as [->|Hm]; [discriminate Hk|]).
  by apply elem_of_nil in Hm.
Qed.

(** C4. Every call of [getMarsPhotos] is the call of [cachedGet] with the
    parameters below. With neither [sol] nor [earthDate] supplied they hold
    [sol=1000]; with both supplied, also for [sol = 0], they hold [sol] and
    no [earth_date]: [sol] takes precedence. *)
Theorem getMarsPhotos_sol_precedence :
  (∀ rover sol earthDate camera,
     getMarsPhotos rover sol earthDate camera =
       cachedGet NASAClient (getMarsPhotos_path rover)
         {| params := Some (getMarsPhotos_params sol earthDate camera) |}
         (getMarsPhotos_cacheKey rover sol earthDate camera) (ttl_mars config)) ∧
  (∀ camera,
     getMarsPhotos_params None None camera !! "sol" = Some (Num (of_Z 1000))) ∧
  (∀ sol earthDate camera,
     getMarsPhotos_params (Some sol) (Some earthDate) camera !! "sol" = Some (Num sol) ∧
     getMarsPhotos_params (Some sol) (Some earthDate) camera !! "earth_date" = None) ∧
  (∀ earthDate camera,
     getMarsPhotos_params (Some (of_Z 0)) (Some earthDate) camera !! "sol"
       = Some (Num (of_Z 0)) ∧
     getMarsPhotos_params (Some (of_Z 0)) (Some earthDate) camera !! "earth_date" = None).
Proof.
  assert (∀ sol earthDate camera,
     getMarsPhotos_params (Some sol) (Some earthDate) camera !! "sol" = Some (Num sol) ∧
     getMarsPhotos_params (Some sol) (Some earthDate) camera !! "earth_date" = None)
    as both.
  { intros sol earthDate camera. unfold getMarsPhotos_params, set_if.
    destruct (ToBoolean (arg_str camera)); by simplify_map_eq. }
  split; [done|].
  split; [|split; [exact both | intros; apply both]].
  intros camera. unfold getMarsPhotos_params, set_if. simpl.
  destruct (ToBoolean (arg_str camera)); by simplify_map_eq.
Qed.

(** C5. [getDONKIEvents] upper-cases its [type]: when the result is one of
    the eight event types (FLR, SEP, CME, IPS, MPC, GST, RBE, HSS) the
    request that goes to [cachedGet] uses it, in the path and in the cache
    key, and otherwise the request falls back to [FLR]. *)
Theorem getDONKIEvents_type_fallback (type : string) :
  upper_case_has_no_lower H →
  (toUpperCase type ∈ allow_list →
     eventType type = toUpperCase type ∧
     getDONKIEvents_path type = "/DONKI/" +:+ toUpperCase type ∧
     ∀ startDate endDate,
       getDONKIEvents type startDate endDate =
         cachedGet NASAClient ("/DONKI/" +:+ toUpperCase type)
           {| params := Some (<["endDate" := Str endDate]>
                (<["startDate" := Str startDate]>
                   {[ "api_key" := Str (apiKeys_nasa config) ]})) |}
           ("donki:" +:+ toUpperCase type +:+ ":" +:+ startDate +:+ ":" +:+ endDate)
           (ttl_spaceWeather config)) ∧
  (toUpperCase type ∉ allow_list →
     eventType type = "FLR" ∧
     getDONKIEvents_path type = "/DONKI/FLR" ∧
     ∀ startDate endDate,
       getDONKIEvents type startDate endDate =
         cachedGet NASAClient "/DONKI/FLR"
           {| params := Some (<["endDate" := Str endDate]>
                (<["startDate" := Str startDate]>
                   {[ "api_key" := Str (apiKeys_nasa config) ]})) |}
           ("donki:FLR:" +:+ startDate +:+ ":" +:+ endDate)
           (ttl_spaceWeather config)).
Proof.
  intros Hupper.
  assert (toUpperCase type ∈ allow_list → eventType type = toUpperCase type) as Hin.
  { intros Hin. unfold eventType, typeMap_get.
    rewrite typeMap_lookup, bool_decide_eq_true_2 by done.
    assert (ToBoolean (Str (toUpperCase type)) = true) as Htruthy.
    { unfold allow_list in Hin.
      repeat (apply elem_of_cons in Hin as [->|Hin]; [reflexivity|]).
      by apply elem_of_nil in Hin. }
    unfold or_else. by rewrite Htruthy. }
  assert (toUpperCase type ∉ allow_list → eventType type = "FLR") as Hout.
  { intros Hout. unfold eventType, typeMap_get.
    rewrite typeMap_lookup, bool_decide_eq_false_2 by done.
    by rewrite (Object_prototype_member_lower _ (Hupper type)). }
  split; intros Hcase; unfold getDONKIEvents, getDONKIEvents_path.
  - by rewrite (Hin Hcase).
  - by rewrite (Hout Hcase).
Qed.

(** ** Cache keys *)

(** Two texts that agree, each cut at its first colon, agree on both sides
    of it. *)
Lemma split_at_colon (a b x y : string) :
  colon_free a → colon_free b →
  a +:+ ":" +:+ x = b +:+ ":" +:+ y → a = b ∧ x = y.
Proof.
  unfold colon_free. revert b.
  induction a as [|c a IH]; intros [|d b]; simpl; intros Ha Hb Heq.
  - by simplify_eq.
  - simplify_eq; by try case_decide.
  - simplify_eq; by try case_decide.
  - injection Heq as -> Heq.
    case_decide; [done|].
    destruct (IH b Ha Hb Heq) as [-> ->]. done.
Qed.

Lemma date_or_colon_free (fallback : string) (date : option string) :
  colon_free fallback → colon_free (default "" date) → colon_free (date_or fallback date).
Proof.
  intros Hf Hd. unfold date_or, or_else.
  destruct date as [d|]; simpl; [|done].
  by destruct (negb _).
Qed.

Lemma sol_or_date_colon_free sol earthDate :
  rendering_has_no_colon H → absent_or_truthy sol → colon_free (default "" earthDate) →
  colon_free (sol_or_date sol earthDate).
Proof.
  intros Hnum Hsol Hdate. unfold sol_or_date.
  destruct sol as [n|]; simpl in *.
  - unfold or_else at 2. simpl. rewrite Hsol.
    unfold or_else. simpl. rewrite Hsol. apply Hnum.
  - unfold or_else at 2. simpl.
    by apply (date_or_colon_free "default").
Qed.

(** C3, amended. Equal parameter tuples have equal cache keys, and keys
    tell tuples apart up to the defaults they fill in.
    - [getAPOD]: two keys are equal exactly when [date || 'today'] agree.
    - [getMarsPhotos], for rover names and Earth dates without [':'] and a
      [sol] that is absent or truthy: two keys are equal exactly when the
      rover, the text of [sol || earthDate || 'default'] and
      [camera || 'all'] agree.
    - [getEarthImagery], for two calls with the same [dim]: two keys are
      equal exactly when [lat], [lon] and [date || 'latest'] agree.
    The keys are the ones the three operations hand to [cachedGet]. *)
Theorem cache_keys_up_to_defaults :
  rendering_is_injective H → rendering_has_no_colon H →
  ((∀ date,
      getAPOD date =
        cachedGet NASAClient "/planetary/apod"
          {| params := Some (getAPOD_params date) |}
          (getAPOD_cacheKey date) (ttl_apod config)) ∧
   (∀ rover sol earthDate camera,
      getMarsPhotos rover sol earthDate camera =
        cachedGet NASAClient (getMarsPhotos_path rover)
          {| params := Some (getMarsPhotos_params sol earthDate camera) |}
          (getMarsPhotos_cacheKey rover sol earthDate camera) (ttl_mars config)) ∧
   (∀ lat lon date dim,
      getEarthImagery lat lon date dim =
        cachedGet NASAClient "/planetary/earth/imagery"
          {| params := Some (getEarthImagery_params lat lon date dim) |}
          (getEarthImagery_cacheKey lat lon date dim) (ttl_earth config))) ∧
  (∀ date1 date2,
     getAPOD_cacheKey date1 = getAPOD_cacheKey date2 ↔
     date_or "today" date1 = date_or "today" date2) ∧
  (∀ rover1 sol1 earthDate1 camera1 rover2 sol2 earthDate2 camera2,
     colon_free rover1 → colon_free rover2 →
     colon_free (default "" earthDate1) → colon_free (default "" earthDate2) →
     absent_or_truthy sol1 → absent_or_truthy sol2 →
     getMarsPhotos_cacheKey rover1 sol1 earthDate1 camera1
       = getMarsPhotos_cacheKey rover2 sol2 earthDate2 camera2 ↔
     rover1 = rover2 ∧
     sol_or_date sol1 earthDate1 = sol_or_date sol2 earthDate2 ∧
     date_or "all" camera1 = date_or "all" camera2) ∧
  (∀ lat1 lon1 date1 lat2 lon2 date2 dim,
     getEarthImagery_cacheKey lat1 lon1 date1 dim
       = getEarthImagery_cacheKey lat2 lon2 date2 dim ↔
     lat1 = lat2 ∧ lon1 = lon2 ∧ date_or "latest" date1 = date_or "latest" date2).
Proof.
  intros Hinj Hcolon. split; [done|]. split; [|split].
  - intros date1 date2. unfold getAPOD_cacheKey. fold (date_or "today" date1).
    fold (date_or "today" date2).
    split; [simpl; intros [= Heq]; exact Heq | by intros ->].
  - intros rover1 sol1 ed1 cam1 rover2 sol2 ed2 cam2 Hr1 Hr2 Hd1 Hd2 Hs1 Hs2.
    unfold getMarsPhotos_cacheKey.
    fold (sol_or_date sol1 ed1) (sol_or_date sol2 ed2)
         (date_or "all" cam1) (date_or "all" cam2).
    split.
    + simpl. intros [= Heq].
      apply split_at_colon in Heq as [-> Heq]; [|done..].
      apply split_at_colon in Heq as [-> ->];
        [done | by apply sol_or_date_colon_free..].
    + by intros (-> & -> & ->).
  - intros lat1 lon1 date1 lat2 lon2 date2 dim.
    unfold getEarthImagery_cacheKey.
    fold (date_or "latest" date1) (date_or "latest" date2).
    split.
    + simpl. intros [= Heq].
      apply split_at_colon in Heq as [Hlat Heq]; [|apply Hcolon..].
      apply split_at_colon in Heq as [Hlon ->]; [|apply Hcolon..].
      by rewrite (Hinj _ _ Hlat), (Hinj _ _ Hlon).
    + by intros (-> & -> & ->).
Qed.

End Requests.

(** * The sample host meets the runtime facts *)

Section SampleHost.
Import Sample.

Lemma pretty_N_go_numeric (x : N) (s : string) :
  all_numeric s = true → all_numeric (pretty_N_go x s) = true.
Proof.
  revert s. induction (N.lt_wf_0 x) as [x _ IH]; intros s Hs.
  assert (x = 0 ∨ 0 < x)%N as [->|Hpos] by lia.
  - by rewrite pretty_N_go_0.
  - rewrite pretty_N_go_step by done. apply IH.
    + by apply N.div_lt.
    + simpl. rewrite Hs. unfold pretty_N_char. by repeat case_match.
Qed.

Lemma pretty_Z_numeric (z : Z) : all_numeric (pretty z) = true.
Proof.
  assert (∀ n : N, all_numeric (pretty n) = true) as HN.
  { intros n. unfold pretty, pretty_N. case_decide; [done|].
    by apply pretty_N_go_numeric. }
  destruct z as [|p|p]; [done | apply (HN (Npos p)) |].
  change (pretty (Zneg p)) with ("-" +:+ pretty (Npos p)).
  simpl. apply HN.
Qed.

Lemma all_numeric_occurs (c : ascii) (s : string) :
  numeric c = false → all_numeric s = true → occurs c s = false.
Proof.
  intros Hc. induction s as [|d s IH]; simpl; [done|].
  intros [Hd Hs]%andb_true_iff.
  case_decide; [congruence | by apply IH].
Qed.

Lemma sample_rendering_no_colon : rendering_has_no_colon host.
Proof.
  intros [z|]; simpl; [|done].
  apply all_numeric_occurs; [done | apply pretty_Z_numeric].
Qed.

Lemma sample_rendering_injective : rendering_is_injective host.
Proof.
  assert (∀ z : Z, pretty z ≠ "0.025") as Hfrac.
  { intros z Heq.
    assert (occurs "." (pretty z) = false) as Hdot
      by (apply all_numeric_occurs; [done | apply pretty_Z_numeric]).
    by rewrite Heq in Hdot. }
  intros [z1|] [z2|]; simpl; intros Heq.
  - f_equal. by apply pretty_Z_inj.
  - by destruct (Hfrac z1).
  - by destruct (Hfrac z2).
  - done.
Qed.

Lemma upper_not_lower (c : ascii) : is_lower_ascii (upper c) = false.
Proof. destruct c as [[] [] [] [] [] [] [] []]; reflexivity. Qed.

Lemma sample_upper_case : upper_case_has_no_lower host.
Proof.
  intros s. simpl. induction s as [|c s IH]; simpl; [done|].
  by rewrite upper_not_lower, IH.
Qed.

Lemma sample_never_rejects failing hits : @never_rejects host (collaborators failing hits).
Proof. intros client path options cacheKey ttl w. by eexists _, _. Qed.

End SampleHost.

(** * The properties on sample runs *)

Section SampleRuns.
Import Sample.

(** With the southern aurora fetch failing, and the solar wind served from
    the cache, the summary is the bare failure envelope. *)
Lemma getSpaceWeatherSummary_all_or_nothing_witness :
  ∃ r w',
    @getSpaceWeatherSummary host (collaborators ["aurora-south"] ["solar-wind"]) 0%Z
      = (Fulfilled r, w') ∧
    success r = false ∧ data r = None ∧ code <$> error r = Some "SPACE_WEATHER_ERROR".
Proof.
  edestruct (@getSpaceWeatherSummary_all_or_nothing host
               (collaborators ["aurora-south"] ["solar-wind"]) 0%Z)
    as (r & w' & Hrun & _ & Hfail); [reflexivity..|].
  exists r, w'. split; [exact Hrun|].
  destruct Hfail as (-> & _ & _); [right; right; left; reflexivity|].
  repeat split.
Defined.

(** With both hemispheres answering, the forecast holds both answers. *)
Lemma getAuroraForecast_all_or_nothing_witness :
  ∃ r w',
    @getAuroraForecast host (collaborators [] []) 0%Z = (Fulfilled r, w') ∧
    success r = true ∧
    data r = Some (VObj
      [("north", VStr "/products/aurora-forecast-northern-hemisphere.json");
       ("south", VStr "/products/aurora-forecast-southern-hemisphere.json")]).
Proof.
  edestruct (@getAuroraForecast_all_or_nothing host (collaborators [] []) 0%Z)
    as (r & w' & Hrun & _ & Hok & _); [reflexivity..|].
  exists r, w'. split; [exact Hrun|].
  destruct Hok as (-> & _); [reflexivity..|].
  split; reflexivity.
Defined.

(** C3, as stated, fails: no date and the date ['today'] share a key. *)
Lemma apod_keys_collide :
  (None : option string) ≠ Some "today" ∧
  @getAPOD_cacheKey host None = @getAPOD_cacheKey host (Some "today").
Proof. split; [discriminate | reflexivity]. Qed.

(** Two more collisions: [sol = 0] is sent as [sol=0] but keyed as if no
    [sol] had been given, and [dim] is sent but not keyed. *)
Example mars_sol_zero_keyed_as_default :
  @getMarsPhotos_cacheKey host "curiosity" (Some (int 0)) None None
    = @getMarsPhotos_cacheKey host "curiosity" None None None ∧
  @getMarsPhotos_params host (collaborators [] []) (Some (int 0)) None None !! "sol"
    = Some (Num (int 0)) ∧
  @getMarsPhotos_params host (collaborators [] []) None None None !! "sol"
    = Some (Num (int 1000)).
Proof. repeat split; vm_compute; reflexivity. Qed.

Example earth_imagery_key_ignores_dim :
  @getEarthImagery_cacheKey host (int 51) (int 0) None (Some (int 1))
    = @getEarthImagery_cacheKey host (int 51) (int 0) None None ∧
  @getEarthImagery_params host (collaborators [] []) (int 51) (int 0) None (Some (int 1))
    !! "dim" = Some (Num (int 1)) ∧
  @getEarthImagery_params host (collaborators [] []) (int 51) (int 0) None None
    !! "dim" = Some (Num frac_0_025).
Proof. repeat split; vm_compute; reflexivity. Qed.

(** Why the rover and the date must be free of colons, and why the middle
    part is compared as text. *)
Example mars_colon_moves_the_cut :
  @getMarsPhotos_cacheKey host "a" None (Some "b:c") None
    = @getMarsPhotos_cacheKey host "a:b" None (Some "c") None.
Proof. reflexivity. Qed.

Example mars_sol_and_date_read_alike :
  @getMarsPhotos_cacheKey host "spirit" (Some (int 5)) None None
    = @getMarsPhotos_cacheKey host "spirit" None (Some "5") None.
Proof. reflexivity. Qed.

(** Keys of the sample host that do differ. *)
Lemma cache_keys_up_to_defaults_witness :
  @getAPOD_cacheKey host (Some "2024-01-01") ≠ @getAPOD_cacheKey host None ∧
  @getMarsPhotos_cacheKey host "curiosity" (Some (int 1000)) None None
    ≠ @getMarsPhotos_cacheKey host "curiosity" (Some (int 1000)) None (Some "MAST") ∧
  @getEarthImagery_cacheKey host (int 51) (int 0) None None
    ≠ @getEarthImagery_cacheKey host (int 51) (int 1) None None.
Proof.
  destruct (@cache_keys_up_to_defaults host (collaborators [] [])
              sample_rendering_injective sample_rendering_no_colon)
    as (_ & Hapod & Hmars & Hearth).
  split; [|split].
  - intros Heq. apply Hapod in Heq. discriminate Heq.
  - intros Heq. apply Hmars in Heq as (_ & _ & Hcam);
      [discriminate Hcam | reflexivity..].
  - intros Heq. apply Hearth in Heq as (_ & Hlon & _). discriminate Hlon.
Defined.

Lemma getDONKIEvents_type_fallback_witness :
  @eventType host "cme" = "CME" ∧ @eventType host "flare" = "FLR".
Proof.
  split.
  - apply (@getDONKIEvents_type_fallback host (collaborators [] []) "cme"
             sample_upper_case).
    change (@toUpperCase host "cme") with "CME". unfold allow_list.
    do 2 apply list_elem_of_further. apply list_elem_of_here.
  - apply (@getDONKIEvents_type_fallback host (collaborators [] []) "flare"
             sample_upper_case).
    change (@toUpperCase host "flare") with "FLARE". unfold allow_list.
    intros Hin.
    repeat (apply elem_of_cons in Hin as [Heq|Hin]; [discriminate Heq|]).
    by apply elem_of_nil in Hin.
Defined.

Lemma constructed_envelopes_well_formed_witness :
  @well_formed host (failure_envelope AURORA_FORECAST_ERROR (int 2)).
Proof.
  apply (@constructed_envelopes_well_formed host (collaborators ["aurora-north"] [])
           0%Z _ 3%Z).
  left. reflexivity.
Defined.

Lemma operations_never_reject_witness :
  ∃ r w',
    @call host (collaborators ["kp-index"] []) GetSpaceWeatherSummary 0%Z
      = (Fulfilled r, w').
Proof.
  apply operations_never_reject, sample_never_rejects.
Defined.

(** When the base client does reject, so does the operation. *)
Example rejection_crosses_the_boundary :
  @getSpaceWeatherSummary host rejecting 0%Z = (Rejected (VStr "ECONNRESET"), 0%Z).
Proof. reflexivity. Qed.

(** The envelope says [cached: false] although both hemispheres were served
    from the cache. *)
Lemma composite_metadata_fixed_witness :
  ∃ r w',
    @getAuroraForecast host (collaborators [] ["aurora-north"; "aurora-south"]) 0%Z
      = (Fulfilled r, w') ∧
    cached (metadata r) = false ∧ source (metadata r) = "NOAA-SWPC".
Proof.
  eexists _, _. split; [reflexivity|].
  apply (@composite_metadata_fixed host
           (collaborators [] ["aurora-north"; "aurora-south"]) 0%Z _ 3%Z).
  left. reflexivity.
Defined.

End SampleRuns.

(** * The ISS page *)

Section PageProperties.
Context {H : Host}.
Import ISSPage.

Ltac unfold_handler :=
  unfold tick, calls, throws, fetchData, fetchData_try, try_catch, await, set,
    mbind, mret, Handler_bind, Handler_ret.

Ltac case_completion :=
  match goal with
  | |- context [match ?c with Fulfilled _ => _ | Rejected _ => _ end] =>
      lazymatch c with
      | context [match _ with _ => _ end] => fail
      | context [if _ then _ else _] => fail
      | _ => destruct c eqn:?
      end
  | |- context [if ?b then _ else _] =>
      lazymatch b with
      | context [match _ with _ => _ end] => fail
      | context [if _ then _ else _] => fail
      | _ => destruct b eqn:?
      end
  end.

(** A read throws exactly on [null] and [undefined]. *)
Lemma Get_prop (v : value) (k : string) :
  Get v k = if nullish v then Rejected TypeError else Fulfilled (prop v k).
Proof. by destruct v. Qed.

Lemma Array_filter_ISS (items : list value) :
  Array_filter (λ p, craft ← Get p "craft"; mret (is_ISS craft)) items =
    if forallb (λ p, negb (nullish p)) items
    then Fulfilled (List.filter (λ p, is_ISS (prop p "craft")) items)
    else Rejected TypeError.
Proof.
  induction items as [|p items IH]; simpl; [done|].
  rewrite IH, Get_prop. unfold mbind, mret, Completion_bind, Completion_ret.
  destruct (nullish p); simpl; [done|].
  destruct (forallb _ items); [|done].
  by destruct (is_ISS _).
Qed.

Lemma calls_set_error (fetch : Network) (u : SetState) :
  u ∈ calls fetch →
  match u with setError e => e = Some load_failure | _ => True end.
Proof.
  unfold_handler. simpl.
  repeat (case_completion; simpl).
  all: intros Hin; repeat (apply elem_of_cons in Hin as [->|Hin]; [done|]);
    by apply elem_of_nil in Hin.
Qed.

Lemma tick_error (fetch : Network) (st : State) :
  error (tick fetch st) = if throws fetch then Some load_failure else error st.
Proof.
  unfold_handler. simpl.
  repeat (case_completion; simpl); reflexivity.
Qed.


Lemma prop_nullish (v : value) (k : string) : nullish v = true → prop v k = VUndefined.
Proof. by destruct v. Qed.

Lemma filter_ISS_run (people : value) :
  filter_ISS people =
    match people with
    | VArr items =>
        if forallb (λ p, negb (nullish p)) items
        then Fulfilled (List.filter (λ p, is_ISS (prop p "craft")) items)
        else Rejected TypeError
    | _ => Rejected TypeError
    end.
Proof. destruct people; try done. apply Array_filter_ISS. Qed.

(** The [try] block in closed form, once both fetches and both parsings
    have completed. *)
Lemma fetchData_try_run (fetch : Network) posRes posData astroRes astroData :
  fetch position_url = Fulfilled posRes →
  json posRes = Fulfilled posData →
  fetch astronauts_url = Fulfilled astroRes →
  json astroRes = Fulfilled astroData →
  fetchData_try fetch =
    if nullish posData then (Rejected TypeError, []) else
    let moved :=
      if truthy (prop posData "success")
      then [setPosition (prop posData "data")] else [] in
    if nullish astroData then (Rejected TypeError, moved) else
    if truthy (prop astroData "success") then
      match prop (prop astroData "data") "people" with
      | VArr items =>
          if forallb (λ p, negb (nullish p)) items
          then (Fulfilled (),
                (moved ++ [setAstronauts (List.filter (λ p, is_ISS (prop p "craft")) items);
                           setLoading false])%list)
          else (Rejected TypeError, moved)
      | _ => (Rejected TypeError, moved)
      end
    else (Fulfilled (), (moved ++ [setLoading false])%list).
Proof.
  intros Hp Hpj Ha Haj. unfold_handler.
  rewrite Hp. simpl. rewrite Hpj. simpl. rewrite !Get_prop.
  destruct (nullish posData) eqn:Hnp; simpl; [done|].
  destruct (truthy (prop posData "success")) eqn:Htp; simpl;
    rewrite Ha; simpl; rewrite Haj; simpl; rewrite !Get_prop;
    (destruct (nullish astroData) eqn:Hna; simpl; [done|]);
    (destruct (truthy (prop astroData "success")) eqn:Hta; simpl; [|done]);
    rewrite Get_prop;
    (destruct (nullish (prop astroData "data")) eqn:Hnd; simpl;
       [by rewrite (prop_nullish _ _ Hnd)|]);
    rewrite filter_ISS_run;
    (destruct (prop (prop astroData "data") "people"); simpl; try done);
    by destruct (forallb _ _).
Qed.


Lemma calls_emitted (fetch : Network) : Forall emitted (calls fetch).
Proof. apply Forall_forall. intros u Hu. by exists fetch. Qed.

Lemma run_keeps_error (later : list SetState) (st : State) :
  Forall emitted later →
  error st = Some load_failure → error (run later st) = Some load_failure.
Proof.
  intros Hlater. revert st.
  induction Hlater as [|u later [fetch Hu] _ IH]; intros st Hst; [done|].
  apply IH. apply calls_set_error in Hu.
  destruct u; simpl; congruence.
Qed.

(** In particular over whole poll cycles, throwing or not. *)
Lemma ticks_keep_error (fetches : list Network) (st : State) :
  error st = Some load_failure → error (ticks fetches st) = Some load_failure.
Proof.
  revert st. induction fetches as [|fetch fetches IH]; intros st Hst; [done|].
  apply IH. by apply run_keeps_error; [apply calls_emitted|].
Qed.

Lemma calls_healthy (d : value) :
  calls (healthy d) = [setPosition d; setAstronauts [an_astronaut]; setLoading false].
Proof. reflexivity. Qed.

(** C8. Once a failed poll cycle has set the error state, nothing the
    component does later clears it: after any sequence of setter calls that
    poll cycles make, whether the cycles throw or succeed and however their
    calls interleave, the error state is still the failure message. A later
    successful cycle still updates the position and the astronaut list. *)
Theorem error_never_cleared (fetch0 : Network) (st0 : State) (later : list SetState) :
  throws fetch0 = true →
  Forall emitted later →
  let st := run later (tick fetch0 st0) in
  error (tick fetch0 st0) = Some load_failure ∧
  error st = Some load_failure ∧
  ∀ d, throws (healthy d) = false ∧
       error (tick (healthy d) st) = Some load_failure ∧
       position (tick (healthy d) st) = d ∧
       astronauts (tick (healthy d) st) = [an_astronaut].
Proof.
  intros Hthrows Hlater st.
  assert (error (tick fetch0 st0) = Some load_failure) as Hset
    by (by rewrite tick_error, Hthrows).
  assert (error st = Some load_failure) as Hkept
    by (by apply run_keeps_error).
  repeat split; try done.
Qed.


End PageProperties.

(** * The page on sample networks *)

Section PageRuns.
Import Sample ISSPage.


(** Offline first, then a healthy cycle: the position arrives, the error
    stays. *)
Lemma error_never_cleared_witness :
  let st := run (calls (healthy a_position)) (tick offline initial) in
  error st = Some load_failure ∧ position st = a_position.
Proof.
  destruct (@error_never_cleared host offline initial (calls (healthy a_position))
              eq_refl (calls_emitted _)) as (_ & Hkept & _).
  split; [exact Hkept | reflexivity].
Defined.


End PageRuns.

(** * More about the requests of [NASAClient] *)

Section MoreRequests.
Context {H : Host} {C : Collaborators}.

(** X1. An optional text argument given as the empty string is treated as
    if it had not been given: the call of [cachedGet] is the same, path,
    parameters, cache key and all. *)
Theorem empty_text_is_absent :
  getAPOD (Some "") = getAPOD None ∧
  (∀ rover sol camera,
     getMarsPhotos rover sol (Some "") camera = getMarsPhotos rover sol None camera) ∧
  (∀ rover sol earthDate,
     getMarsPhotos rover sol earthDate (Some "") = getMarsPhotos rover sol earthDate None) ∧
  (∀ lat lon dim,
     getEarthImagery lat lon (Some "") dim = getEarthImagery lat lon None dim).
Proof.
  split; [reflexivity|]. split; [|split].
  - intros rover [sol|] camera; [|reflexivity].
    unfold getMarsPhotos, getMarsPhotos_cacheKey, or_else. simpl.
    by destruct (NumberToBoolean sol).
  - intros rover sol earthDate. reflexivity.
  - reflexivity.
Qed.

Lemma getMarsPhotos_params_lookup sol earthDate camera (k : string) :
  getMarsPhotos_params sol earthDate camera !! k =
    if decide (k = "camera") then
      (if ToBoolean (arg_str camera) then Some (arg_str camera) else None)
    else if decide (k = "sol") then
      match sol with
      | Some n => Some (Num n)
      | None => if ToBoolean (arg_str earthDate) then None else Some (Num (of_Z 1000))
      end
    else if decide (k = "earth_date") then
      match sol with
      | Some _ => None
      | None => if ToBoolean (arg_str earthDate) then Some (arg_str earthDate) else None
      end
    else if decide (k = "api_key") then Some (Str (apiKeys_nasa config))
    else None.
Proof.
  unfold getMarsPhotos_params, set_if.
  destruct sol as [n|], (ToBoolean (arg_str earthDate)), (ToBoolean (arg_str camera));
    repeat case_decide; by simplify_map_eq.
Qed.

(** X2. The parameters of a Mars photo request always carry the API key,
    carry exactly one of [sol] and [earth_date] ([earth_date] only when no
    [sol] was given and the Earth date is not empty), carry [camera] exactly
    when a non-empty camera was given, and nothing else. *)
Theorem getMarsPhotos_params_shape sol earthDate camera :
  let p := getMarsPhotos_params sol earthDate camera in
  p !! "api_key" = Some (Str (apiKeys_nasa config)) ∧
  (is_Some (p !! "sol") ↔ p !! "earth_date" = None) ∧
  (is_Some (p !! "earth_date") ↔ sol = None ∧ ToBoolean (arg_str earthDate) = true) ∧
  (is_Some (p !! "camera") ↔ ToBoolean (arg_str camera) = true) ∧
  (∀ k, is_Some (p !! k) → k ∈ ["api_key"; "sol"; "earth_date"; "camera"]) ∧
  (∀ rover,
     getMarsPhotos rover sol earthDate camera =
       cachedGet NASAClient (getMarsPhotos_path rover) {| params := Some p |}
         (getMarsPhotos_cacheKey rover sol earthDate camera) (ttl_mars config)).
Proof.
  intros p. subst p.
  split; [by rewrite getMarsPhotos_params_lookup|].
  split; [|split; [|split; [|split; [|done]]]].
  - rewrite !getMarsPhotos_params_lookup. simpl.
    destruct sol, (ToBoolean (arg_str earthDate)); simpl;
      split; try done; eauto; intros [? ?]; done.
  - rewrite getMarsPhotos_params_lookup. simpl.
    destruct sol, (ToBoolean (arg_str earthDate)); simpl;
      split; try (intros [? ?]; done); eauto.
  - rewrite getMarsPhotos_params_lookup. simpl.
    destruct (ToBoolean (arg_str camera)); split; try done; eauto;
      intros [? ?]; done.
  - intros k. rewrite getMarsPhotos_params_lookup.
    repeat case_decide; subst; try (intros [? ?]; done); intros _;
      repeat ((by apply list_elem_of_here) || apply list_elem_of_further).
Qed.

(** X5. [dim], defaulting to [0.025], is sent with an Earth imagery request
    but is not part of its cache key: two calls that differ in [dim] alone
    send different parameters under the same key. *)
Theorem getEarthImagery_dim_not_keyed lat lon date dim1 dim2 :
  default lit_0_025 dim1 ≠ default lit_0_025 dim2 →
  getEarthImagery_cacheKey lat lon date dim1 = getEarthImagery_cacheKey lat lon date dim2 ∧
  getEarthImagery_params lat lon date dim1 !! "dim" = Some (Num (default lit_0_025 dim1)) ∧
  getEarthImagery_params lat lon date dim2 !! "dim" = Some (Num (default lit_0_025 dim2)) ∧
  getEarthImagery_params lat lon date dim1 ≠ getEarthImagery_params lat lon date dim2 ∧
  (∀ dim,
     getEarthImagery lat lon date dim =
       cachedGet NASAClient "/planetary/earth/imagery"
         {| params := Some (getEarthImagery_params lat lon date dim) |}
         (getEarthImagery_cacheKey lat lon date dim) (ttl_earth config)).
Proof.
  intros Hdim.
  assert (∀ dim, getEarthImagery_params lat lon date dim !! "dim"
                 = Some (Num (default lit_0_025 dim))) as Hsent.
  { intros dim. unfold getEarthImagery_params, set_if.
    destruct (ToBoolean (arg_str date)); by simplify_map_eq. }
  split; [done|]. split; [apply Hsent|]. split; [apply Hsent|]. split; [|done].
  intros Heq. pose proof (Hsent dim1) as H1. rewrite Heq, Hsent in H1.
  congruence.
Qed.

(** X3. A falsy [sol] (such as [0]) is sent as [sol] but keyed as if no
    [sol] had been given: the request differs from the one without [sol],
    the cache key does not. *)
Theorem getMarsPhotos_falsy_sol rover sol earthDate camera :
  NumberToBoolean sol = false →
  NumberToBoolean (of_Z 1000) = true →
  getMarsPhotos_cacheKey rover (Some sol) earthDate camera
    = getMarsPhotos_cacheKey rover None earthDate camera ∧
  getMarsPhotos_params (Some sol) earthDate camera !! "sol" = Some (Num sol) ∧
  getMarsPhotos_params (Some sol) earthDate camera
    ≠ getMarsPhotos_params None earthDate camera ∧
  (∀ sol',
     getMarsPhotos rover sol' earthDate camera =
       cachedGet NASAClient (getMarsPhotos_path rover)
         {| params := Some (getMarsPhotos_params sol' earthDate camera) |}
         (getMarsPhotos_cacheKey rover sol' earthDate camera) (ttl_mars config)).
Proof.
  intros Hfalsy Hdefault.
  split; [|split; [|split; [|done]]].
  - unfold getMarsPhotos_cacheKey, or_else. simpl. by rewrite Hfalsy.
  - unfold getMarsPhotos_params, set_if.
    destruct (ToBoolean (arg_str camera)); by simplify_map_eq.
  - intros Heq.
    assert (getMarsPhotos_params (Some sol) earthDate camera !! "sol"
            = getMarsPhotos_params None earthDate camera !! "sol") as Hsol
      by (by rewrite Heq).
    unfold getMarsPhotos_params, set_if in Hsol.
    destruct (ToBoolean (arg_str camera)), (ToBoolean (arg_str earthDate));
      simplify_map_eq; congruence.
Qed.

(** X4. The rover name is lower-cased in the path but not in the cache key:
    two spellings of one rover ask for the same URL under different keys. *)
Theorem getMarsPhotos_rover_case rover1 rover2 sol earthDate camera :
  toLowerCase rover1 = toLowerCase rover2 → rover1 ≠ rover2 →
  colon_free rover1 → colon_free rover2 →
  (∀ rover, getMarsPhotos rover sol earthDate camera =
     cachedGet NASAClient (getMarsPhotos_path rover)
       {| params := Some (getMarsPhotos_params sol earthDate camera) |}
       (getMarsPhotos_cacheKey rover sol earthDate camera) (ttl_mars config)) ∧
  getMarsPhotos_path rover1 = getMarsPhotos_path rover2 ∧
  getMarsPhotos_cacheKey rover1 sol earthDate camera
    ≠ getMarsPhotos_cacheKey rover2 sol earthDate camera.
Proof.
  intros Hlower Hne Hc1 Hc2. split; [done|]. split.
  - unfold getMarsPhotos_path. by rewrite Hlower.
  - unfold getMarsPhotos_cacheKey. simpl. intros [= Heq].
    by apply split_at_colon in Heq as [? _].
Qed.

Lemma eventType_cases (type : string) :
  upper_case_has_no_lower H →
  eventType type =
    if bool_decide (toUpperCase type ∈ allow_list) then toUpperCase type else "FLR".
Proof.
  intros Hupper. unfold eventType, typeMap_get. rewrite typeMap_lookup.
  case_bool_decide as Hin.
  - assert (ToBoolean (Str (toUpperCase type)) = true) as Htruthy.
    { unfold allow_list in Hin.
      repeat (apply elem_of_cons in Hin as [->|Hin]; [reflexivity|]).
      by apply elem_of_nil in Hin. }
    unfold or_else. by rewrite Htruthy.
  - by rewrite (Object_prototype_member_lower _ (Hupper type)).
Qed.

Lemma allow_list_colon_free (t : string) : t ∈ allow_list → colon_free t.
Proof.
  unfold allow_list. intros Hin.
  repeat (apply elem_of_cons in Hin as [->|Hin]; [reflexivity|]).
  by apply elem_of_nil in Hin.
Qed.

(** X7. Whatever [type] is passed, a DONKI request goes to one of the eight
    endpoints of the allow-list; the caller's [type] never reaches the path
    or the key as it was given. *)
Theorem getDONKIEvents_endpoint (type startDate endDate : string) :
  upper_case_has_no_lower H →
  eventType type ∈ allow_list ∧
  ∃ endpoint, endpoint ∈ allow_list ∧
    getDONKIEvents type startDate endDate =
      cachedGet NASAClient ("/DONKI/" +:+ endpoint)
        {| params := Some (<["endDate" := Str endDate]> (<["startDate" := Str startDate]>
                             {[ "api_key" := Str (apiKeys_nasa config) ]})) |}
        ("donki:" +:+ endpoint +:+ ":" +:+ startDate +:+ ":" +:+ endDate)
        (ttl_spaceWeather config).
Proof.
  intros Hupper.
  assert (eventType type ∈ allow_list) as Hin.
  { rewrite eventType_cases by done. case_bool_decide; [done|].
    apply list_elem_of_here. }
  split; [done|]. by exists (eventType type).
Qed.

(** X8. A DONKI request with an unrecognised type is the solar-flare
    request itself: same path, same parameters, same cache entry. *)
Theorem getDONKIEvents_unknown_is_FLR (type flr startDate endDate : string) :
  upper_case_has_no_lower H →
  toUpperCase flr = "FLR" →
  toUpperCase type ∉ allow_list →
  getDONKIEvents type startDate endDate = getDONKIEvents flr startDate endDate.
Proof.
  intros Hupper Hflr Hout.
  unfold getDONKIEvents, getDONKIEvents_path.
  rewrite !eventType_cases by done. rewrite Hflr.
  by rewrite bool_decide_eq_false_2, bool_decide_eq_true_2
    by (done || apply list_elem_of_here).
Qed.

(** X6. For start dates without [':'], the cache key of a near-Earth-object
    request identifies its pair of dates. *)
Theorem getNearEarthObjects_key startDate1 endDate1 startDate2 endDate2 :
  colon_free startDate1 → colon_free startDate2 →
  (∀ s e, getNearEarthObjects s e =
     cachedGet NASAClient "/neo/rest/v1/feed"
       {| params := Some (<["end_date" := Str e]> (<["start_date" := Str s]>
                            {[ "api_key" := Str (apiKeys_nasa config) ]})) |}
       (getNearEarthObjects_cacheKey s e) (ttl_neo config)) ∧
  (getNearEarthObjects_cacheKey startDate1 endDate1
     = getNearEarthObjects_cacheKey startDate2 endDate2 ↔
   startDate1 = startDate2 ∧ endDate1 = endDate2).
Proof.
  intros Hc1 Hc2. split; [done|]. unfold getNearEarthObjects_cacheKey. split.
  - simpl. intros [= Heq]. by apply split_at_colon in Heq.
  - by intros [-> ->].
Qed.

(** X9. For start dates without [':'], the cache key of a DONKI request
    identifies the endpoint and the pair of dates. *)
Theorem getDONKIEvents_key type1 startDate1 endDate1 type2 startDate2 endDate2 :
  upper_case_has_no_lower H →
  colon_free startDate1 → colon_free startDate2 →
  (∀ t s e, getDONKIEvents t s e =
     cachedGet NASAClient (getDONKIEvents_path t)
       {| params := Some (<["endDate" := Str e]> (<["startDate" := Str s]>
                            {[ "api_key" := Str (apiKeys_nasa config) ]})) |}
       (getDONKIEvents_cacheKey t s e) (ttl_spaceWeather config)) ∧
  (getDONKIEvents_cacheKey type1 startDate1 endDate1
     = getDONKIEvents_cacheKey type2 startDate2 endDate2 ↔
   eventType type1 = eventType type2 ∧ startDate1 = startDate2 ∧ endDate1 = endDate2).
Proof.
  intros Hupper Hc1 Hc2. split; [done|]. unfold getDONKIEvents_cacheKey.
  assert (∀ t, colon_free (eventType t)) as Het.
  { intros t. apply allow_list_colon_free.
    rewrite eventType_cases by done. case_bool_decide; [done|].
    apply list_elem_of_here. }
  split.
  - simpl. intros [= Heq].
    apply split_at_colon in Heq as [Ht Heq]; [|apply Het..].
    apply split_at_colon in Heq as [-> ->]; done.
  - by intros (-> & -> & ->).
Qed.

End MoreRequests.

(** * More about the composite operations *)

Section MoreComposite.
Context {H : Host} {C : Collaborators}.

Ltac run_async :=
  unfold mbind, mret, Async_bind, Async_ret, Promise_all2, Promise_all4, now.

(** X10. [getAuroraForecast] has no handler of its own: it rejects exactly
    when one of its two fetches rejects. *)
Theorem getAuroraForecast_rejects (w : World) :
  rejects getAuroraForecast w ↔
  rejects aurora_north w ∨ rejects aurora_south (aurora_north w).2.
Proof.
  unfold rejects, getAuroraForecast. run_async.
  destruct (aurora_north w) as [[north|x] wn] eqn:Hn; simpl;
    destruct (aurora_south wn) as [[south|y] ws] eqn:Hs; simpl.
  - destruct (negb (success north) || negb (success south));
      destruct (Date_now ws);
      (split; [intros (?&?&?)|intros [(?&?&?)|(?&?&?)]]; done).
  - split; eauto.
  - split; eauto.
  - split; eauto.
Qed.

(** X11. [getSpaceWeatherSummary] rejects exactly when one of its four
    constituents rejects. *)
Theorem getSpaceWeatherSummary_rejects (w : World) :
  let w1 := (getSolarWind w).2 in
  let w2 := (getGeomagneticActivity w1).2 in
  let w3 := (getAuroraForecast w2).2 in
  rejects getSpaceWeatherSummary w ↔
  rejects getSolarWind w ∨ rejects getGeomagneticActivity w1 ∨
  rejects getAuroraForecast w2 ∨ rejects get3DayForecast w3.
Proof.
  unfold rejects, getSpaceWeatherSummary. run_async. simpl.
  destruct (getSolarWind w) as [[a|?] w1] eqn:H1; simpl;
    destruct (getGeomagneticActivity w1) as [[b|?] w2] eqn:H2; simpl;
    destruct (getAuroraForecast w2) as [[c|?] w3] eqn:H3; simpl;
    destruct (get3DayForecast w3) as [[d|?] w4] eqn:H4; simpl;
    try (split; [eauto 10 | eauto]; fail).
  destruct (negb (success a) || negb (success b) || negb (success c) || negb (success d));
    destruct (Date_now w4) as [t w5]; try destruct (Date_now w5);
    (split; [intros (?&?&?); done|]);
    intros [(?&?&?)|[(?&?&?)|[(?&?&?)|(?&?&?)]]]; done.
Qed.

(** X12. Seen from the base client, the summary stands on five fetches
    (solar wind, Kp index, the two aurora hemispheres, 3-day forecast): it
    succeeds exactly when all five do, and then nests the two hemisphere
    payloads under [auroraForecast]. *)
Theorem getSpaceWeatherSummary_over_five_fetches
    w solarWind w1 geomag w2 north w3 south w4 forecast w5 :
  getSolarWind w = (Fulfilled solarWind, w1) →
  getGeomagneticActivity w1 = (Fulfilled geomag, w2) →
  aurora_north w2 = (Fulfilled north, w3) →
  aurora_south w3 = (Fulfilled south, w4) →
  get3DayForecast (Date_now w4).2 = (Fulfilled forecast, w5) →
  ∃ r w', getSpaceWeatherSummary w = (Fulfilled r, w') ∧
    (success r = true ↔
       success solarWind = true ∧ success geomag = true ∧ success north = true ∧
       success south = true ∧ success forecast = true) ∧
    (success r = true →
       data r = Some (VObj
         [("solarWind", get_data solarWind);
          ("geomagneticActivity", get_data geomag);
          ("auroraForecast",
             VObj [("north", get_data north); ("south", get_data south)]);
          ("forecast3Day", get_data forecast);
          ("timestamp", VNum (Date_now w5).1)])).
Proof.
  intros H1 H2 H3 H4 H5.
  pose proof (getAuroraForecast_run _ _ _ _ _ H3 H4) as Haurora.
  rewrite (getSpaceWeatherSummary_run _ _ _ _ _ _ _ _ _ H1 H2 Haurora H5).
  destruct (success solarWind), (success geomag), (success north), (success south),
    (success forecast); simpl; eexists _, _; (split; [reflexivity|]); simpl;
    split; try done; try (split; [done | intros (?&?&?&?&?); done]).
Qed.

End MoreComposite.

(** * More about the ISS page *)

Section MorePage.
Context {H : Host}.
Import ISSPage ISSView.
Context {F : Formatting}.

Ltac unfold_handler :=
  unfold tick, calls, throws, fetchData, fetchData_try, try_catch, await, set,
    mbind, mret, Handler_bind, Handler_ret.

Ltac case_completion :=
  match goal with
  | |- context [match ?c with Fulfilled _ => _ | Rejected _ => _ end] =>
      lazymatch c with
      | context [match _ with _ => _ end] => fail
      | context [if _ then _ else _] => fail
      | _ => destruct c eqn:?
      end
  | |- context [if ?b then _ else _] =>
      lazymatch b with
      | context [match _ with _ => _ end] => fail
      | context [if _ then _ else _] => fail
      | _ => destruct b eqn:?
      end
  end.

Lemma is_ISS_true (v : value) : is_ISS v = true → v = VStr "ISS".
Proof. destruct v; simpl; try done. by intros ->%bool_decide_eq_true. Qed.

Lemma filter_ISS_on_ISS (people : value) (crew : list value) :
  filter_ISS people = Fulfilled crew →
  Forall (λ a, prop a "craft" = VStr "ISS") crew.
Proof.
  rewrite filter_ISS_run. destruct people; try done.
  destruct (forallb _ _); [|done]. intros [= <-].
  apply Forall_forall. intros a [_ Ha]%list_elem_of_In%filter_In.
  by apply is_ISS_true.
Qed.

Lemma calls_set_loading_astronauts (fetch : Network) (u : SetState) :
  u ∈ calls fetch →
  match u with
  | setLoading b => b = false
  | setAstronauts crew => Forall (λ a, prop a "craft" = VStr "ISS") crew
  | _ => True
  end.
Proof.
  unfold_handler. simpl.
  repeat (case_completion; simpl).
  all: intros Hin;
    repeat (apply elem_of_cons in Hin as [->|Hin];
            [first [done | by eapply filter_ISS_on_ISS]|]);
    by apply elem_of_nil in Hin.
Qed.

Lemma tick_loading (fetch : Network) (st : State) : loading (tick fetch st) = false.
Proof.
  unfold_handler. simpl.
  repeat (case_completion; simpl); reflexivity.
Qed.

Lemma run_keeps_loaded (later : list SetState) (st : State) :
  Forall emitted later → loading st = false → loading (run later st) = false.
Proof.
  intros Hlater. revert st.
  induction Hlater as [|u later [fetch Hu] _ IH]; intros st Hst; [done|].
  apply IH. apply calls_set_loading_astronauts in Hu.
  destruct u; simpl; congruence.
Qed.

(** X14. The poll cycles only ever store astronauts whose [craft] is
    ['ISS']. *)
Theorem crew_is_on_the_ISS (later : list SetState) (st : State) :
  Forall emitted later →
  Forall (λ a, prop a "craft" = VStr "ISS") (astronauts st) →
  Forall (λ a, prop a "craft" = VStr "ISS") (astronauts (run later st)).
Proof.
  intros Hlater. revert st.
  induction Hlater as [|u later [fetch Hu] _ IH]; intros st Hst; [done|].
  apply IH. apply calls_set_loading_astronauts in Hu.
  destruct u; simpl; done.
Qed.

(** X15. A poll cycle is not all-or-nothing: when the position arrives and
    the crew fetch then rejects, the position is updated, the astronaut list
    is kept, and the error is set. *)
Theorem position_moves_before_the_crew_fails (fetch : Network) (st : State)
    posRes posData reason :
  fetch position_url = Fulfilled posRes →
  json posRes = Fulfilled posData →
  truthy (prop posData "success") = true →
  fetch astronauts_url = Rejected reason →
  position (tick fetch st) = prop posData "data" ∧
  astronauts (tick fetch st) = astronauts st ∧
  error (tick fetch st) = Some load_failure ∧
  loading (tick fetch st) = false.
Proof.
  intros Hp Hpj Hok Ha.
  assert (nullish posData = false) as Hnn by (by destruct posData).
  unfold_handler. rewrite Hp. simpl. rewrite Hpj. simpl.
  rewrite !Get_prop, Hnn. simpl. rewrite Hok. simpl.
  rewrite Ha. done.
Qed.

(** X16. A clean poll cycle with a success-tagged crew body stores the
    entries of [data.people] whose [craft] is ['ISS'], in their order, and
    leaves the error state alone. *)
Theorem crew_is_the_filtered_people (fetch : Network) (st : State)
    posRes posData astroRes astroData items :
  fetch position_url = Fulfilled posRes →
  json posRes = Fulfilled posData →
  fetch astronauts_url = Fulfilled astroRes →
  json astroRes = Fulfilled astroData →
  nullish posData = false →
  truthy (prop astroData "success") = true →
  prop (prop astroData "data") "people" = VArr items →
  forallb (λ p, negb (nullish p)) items = true →
  astronauts (tick fetch st) = List.filter (λ p, is_ISS (prop p "craft")) items ∧
  (length (astronauts (tick fetch st)) ≤ length items)%nat ∧
  error (tick fetch st) = error st.
Proof.
  intros Hp Hpj Ha Haj Hnp Hok Hpeople Hitems.
  assert (nullish astroData = false) as Hna by (by destruct astroData).
  unfold tick, calls, fetchData, try_catch.
  rewrite (fetchData_try_run _ _ _ _ _ Hp Hpj Ha Haj), Hnp, Hna, Hok, Hpeople, Hitems.
  simpl. destruct (truthy (prop posData "success")); simpl;
    (split; [done|split; [apply List.filter_length_le|done]]).
Qed.


Ltac run_completion := unfold mbind, mret, Completion_bind, Completion_ret.

(** ** The astronaut's initials *)

Lemma append_cons (c : ascii) (a b : string) : String c a +:+ b = String c (a +:+ b).
Proof. reflexivity. Qed.

Lemma split_not_nil (sep : ascii) (s : string) : split sep s ≠ [].
Proof.
  induction s as [|c s IH]; simpl; [done|].
  case_decide; [done|]. by destruct (split sep s).
Qed.

Lemma split_app (sep : ascii) (a b : string) :
  split sep (a +:+ String sep b) = (split sep a ++ split sep b)%list.
Proof.
  induction a as [|c a IH]; [simpl; by rewrite decide_True|].
  rewrite append_cons. simpl.
  case_decide; [by rewrite IH|].
    rewrite IH. pose proof (split_not_nil sep a).
    by destruct (split sep a).
Qed.

Lemma split_length (sep : ascii) (s : string) :
  length (split sep s) = S (count_char sep s).
Proof.
  induction s as [|c s IH]; simpl; [done|].
  case_decide; simpl; [by rewrite IH|].
  pose proof (split_not_nil sep s).
  destruct (split sep s); [done|]. simpl in *. lia.
Qed.

Lemma split_words (sep : ascii) (s : string) :
  Forall (λ w, occurs sep w = false) (split sep s).
Proof.
  induction s as [|c s IH]; simpl; [by repeat constructor|].
  case_decide as Hc; [by constructor|].
  assert (∀ w, occurs sep w = false → occurs sep (String c w) = false) as Hhead.
  { intros w Hw. simpl. by rewrite decide_False by congruence. }
  destruct (split sep s) as [|w ws]; [by repeat constructor; apply Hhead|].
  inversion IH; subst. constructor; [by apply Hhead|done].
Qed.

Lemma split_word (sep : ascii) (s : string) : occurs sep s = false → split sep s = [s].
Proof.
  induction s as [|c s IH]; simpl; [done|].
  case_decide as Hc; [done|]. intros Hs.
  rewrite decide_False by congruence. by rewrite IH.
Qed.

Lemma append_nil_r (w : string) : w +:+ "" = w.
Proof. induction w as [|c w IH]; [done|]. by rewrite append_cons, IH. Qed.

Lemma concat_cons (w : string) (ws : list string) :
  String.concat "" (w :: ws) = w +:+ String.concat "" ws.
Proof. destruct ws as [|v ws]; [symmetry; apply append_nil_r | reflexivity]. Qed.

Lemma append_assoc (a b c : string) : (a +:+ b) +:+ c = a +:+ (b +:+ c).
Proof. induction a as [|x a IH]; [done|]. by rewrite !append_cons, IH. Qed.

Lemma concat_app (l1 l2 : list string) :
  String.concat "" (l1 ++ l2) = String.concat "" l1 +:+ String.concat "" l2.
Proof.
  induction l1 as [|w l1 IH]; [done|].
  change ((w :: l1) ++ l2)%list with (w :: (l1 ++ l2))%list.
  by rewrite !concat_cons, IH, append_assoc.
Qed.

Lemma occurs_app (c : ascii) (a b : string) :
  occurs c (a +:+ b) = occurs c a || occurs c b.
Proof.
  induction a as [|x a IH]; [done|]. rewrite append_cons. simpl. by case_decide.
Qed.

Lemma length_app (a b : string) :
  String.length (a +:+ b) = (String.length a + String.length b)%nat.
Proof. induction a as [|x a IH]; [done|]. rewrite append_cons. simpl. by rewrite IH. Qed.

(** X19. The initials of two names joined by a space are the initials of
    the one followed by the initials of the other. *)
Theorem initials_of_joined_names (a b : string) :
  initials (a +:+ " " +:+ b) = initials a +:+ initials b.
Proof.
  unfold initials. change (" " +:+ b) with (String " " b).
  by rewrite split_app, fmap_app, concat_app.
Qed.

(** X20. Initials hold no space and at most one letter per word; a name
    without spaces has its first letter for initials. *)
Theorem initials_shape (name : string) :
  occurs " " (initials name) = false ∧
  (String.length (initials name) ≤ S (count_char " " name))%nat ∧
  (occurs " " name = false → initials name = first_letter name).
Proof.
  unfold initials. split; [|split].
  - induction (split_words " " name) as [|w ws Hw _ IH]; [done|].
    rewrite fmap_cons, concat_cons, occurs_app, IH.
    destruct w as [|c w]; simpl in *; [done|].
    by destruct (decide (" "%char = c)).
  - rewrite <-split_length.
    induction (split " " name) as [|w ws IH]; [done|].
    rewrite fmap_cons, concat_cons, length_app. simpl.
    destruct w; simpl; lia.
  - intros Hword. rewrite split_word by done. simpl. 
    by destruct name.
Qed.


(** ** The returned view *)

Lemma truthy_not_nullish (v : value) : truthy v = true → nullish v = false.
Proof. by destruct v. Qed.

Lemma call_toFixed_run (v : value) (digits : nat) :
  call_toFixed v digits =
    match v with
    | VNum n => Fulfilled (toFixed n digits)
    | _ => Rejected TypeError
    end.
Proof. done. Qed.

(** The position card and the caption are built exactly for a showable
    position; anything else throws. *)
Lemma guarded_position (position : value) :
  if showable_position position
  then (∃ card, guarded position position_card = Fulfilled card) ∧
       (∃ under_map, guarded position caption = Fulfilled under_map)
  else guarded position position_card = Rejected TypeError.
Proof.
  unfold showable_position, guarded, position_card, caption, time_text.
  destruct (truthy position) eqn:Htruthy; simpl; [|by eauto].
  rewrite !Get_prop, (truthy_not_nullish _ Htruthy). run_completion.
  destruct (prop position "latitude"); simpl; try done.
  destruct (prop position "longitude"); simpl; try done.
  destruct (prop position "altitude"); simpl; try done.
  destruct (prop position "velocity"); simpl; try done.
  destruct (converts (prop position "timestamp")); simpl; eauto.
Qed.

Lemma astronaut_row_run (astronaut : value) :
  if showable_astronaut astronaut
  then ∃ row, astronaut_row astronaut = Fulfilled row ∧ row_of astronaut row
  else astronaut_row astronaut = Rejected TypeError.
Proof.
  unfold showable_astronaut, astronaut_row, row_of. rewrite !Get_prop.
  destruct (nullish astronaut) eqn:Hn.
  { by rewrite (prop_nullish _ _ Hn). }
  run_completion. destruct (prop astronaut "name"); eauto.
Qed.

Lemma rows_run (astronauts : list value) :
  if forallb showable_astronaut astronauts
  then ∃ rows, Array_map astronaut_row astronauts = Fulfilled rows ∧
               Forall2 row_of astronauts rows
  else Array_map astronaut_row astronauts = Rejected TypeError.
Proof.
  induction astronauts as [|a astronauts IH]; simpl.
  { exists []. by split; [|constructor]. }
  pose proof (astronaut_row_run a) as Ha.
  destruct (showable_astronaut a); simpl.
  - destruct Ha as (row & -> & Hrow). run_completion.
    destruct (forallb showable_astronaut astronauts).
    + destruct IH as (rows & -> & Hrows). exists (row :: rows).
      by split; [|constructor].
    + by rewrite IH.
  - by rewrite Ha.
Qed.


(** X18. Past the loading state and without an error, the component
    returns the main view, with the astronaut count and one row per
    astronaut, exactly when the position is falsy or has numbers at
    [latitude], [longitude], [altitude] and [velocity] and a [timestamp]
    that [* 1000] can convert, and every astronaut has a string for a name;
    otherwise building the view throws. *)
Theorem render_main (st : State) :
  loading st = false → error st = None →
  if showable_position (position st) && forallb showable_astronaut (astronauts st)
  then ∃ card rows under_map,
         render st = Fulfilled (MainView card (length (astronauts st)) rows under_map) ∧
         Forall2 row_of (astronauts st) rows ∧
         (truthy (position st) = false →
            card = Falsy (position st) ∧ under_map = Falsy (position st))
  else render st = Rejected TypeError.
Proof.
  intros Hloading Herror. unfold render. rewrite Hloading, Herror.
  pose proof (guarded_position (position st)) as Hposition.
  pose proof (rows_run (astronauts st)) as Hrows.
  destruct (showable_position (position st)); simpl.
  - destruct Hposition as [[card Hcard] [under_map Hunder]].
    rewrite Hcard, Hunder. run_completion.
    destruct (forallb showable_astronaut (astronauts st)).
    + destruct Hrows as (rows & -> & Hrows).
      exists card, rows, under_map. split; [done|]. split; [done|].
      intros Hfalsy. unfold guarded in Hcard, Hunder. rewrite Hfalsy in Hcard, Hunder.
      unfold mret, Completion_ret in Hcard, Hunder. split; congruence.
    + by rewrite Hrows.
  - by rewrite Hposition.
Qed.

(** X13. Every poll cycle, thrown or not, ends the loading state, and no
    later setter call brings it back: once the first cycle is over the
    loading screen is never returned again. *)
Theorem loading_screen_ends (fetch : Network) (st : State) (later : list SetState) :
  Forall emitted later →
  loading (run later (tick fetch st)) = false ∧
  render (run later (tick fetch st)) ≠ Fulfilled LoadingView.
Proof.
  intros Hlater.
  assert (loading (run later (tick fetch st)) = false) as Hloaded
    by (apply run_keeps_loaded; [done | apply tick_loading]).
  split; [done|]. unfold render. rewrite Hloaded. run_completion.
  destruct (error _) as [message|]; [case_bool_decide; [|done]|];
    destruct (guarded _ position_card); try done;
    destruct (Array_map _ _); try done;
    destruct (guarded _ caption); done.
Qed.

(** X17. After one failed poll cycle the component returns the error
    screen, and goes on returning it whatever later cycles deliver. *)
Theorem error_screen_stays (fetch0 : Network) (st0 : State) (later : list SetState) :
  throws fetch0 = true →
  Forall emitted later →
  render (run later (tick fetch0 st0)) = Fulfilled (ErrorView load_failure).
Proof.
  intros Hthrows Hlater. unfold render.
  rewrite (run_keeps_loaded later) by (done || apply tick_loading).
  rewrite (run_keeps_error later); [done..|].
  by rewrite tick_error, Hthrows.
Qed.

End MorePage.

(** * The further properties on sample runs *)

Section MoreRuns.
Import Sample SampleView ISSPage ISSView.

Lemma getMarsPhotos_falsy_sol_witness :
  @getMarsPhotos_cacheKey host "spirit" (Some (int 0)) None None
    = @getMarsPhotos_cacheKey host "spirit" None None None ∧
  @getMarsPhotos_params host (collaborators [] []) (Some (int 0)) None None
    ≠ @getMarsPhotos_params host (collaborators [] []) None None None.
Proof.
  destruct (@getMarsPhotos_falsy_sol host (collaborators [] []) "spirit" (int 0)
              None None eq_refl eq_refl) as (Hkey & _ & Hparams & _).
  by split.
Defined.

Lemma getMarsPhotos_rover_case_witness :
  @getMarsPhotos_path host "Curiosity" = @getMarsPhotos_path host "curiosity" ∧
  @getMarsPhotos_cacheKey host "Curiosity" None None None
    ≠ @getMarsPhotos_cacheKey host "curiosity" None None None.
Proof.
  destruct (@getMarsPhotos_rover_case host (collaborators [] [])
              "Curiosity" "curiosity" None None None) as (_ & Hpath & Hkey);
    [reflexivity | discriminate | reflexivity | reflexivity |].
  by split.
Defined.

Lemma getEarthImagery_dim_not_keyed_witness :
  @getEarthImagery_cacheKey host (int 51) (int 0) None (Some (int 1))
    = @getEarthImagery_cacheKey host (int 51) (int 0) None None ∧
  @getEarthImagery_params host (collaborators [] []) (int 51) (int 0) None (Some (int 1))
    ≠ @getEarthImagery_params host (collaborators [] []) (int 51) (int 0) None None.
Proof.
  destruct (@getEarthImagery_dim_not_keyed host (collaborators [] [])
              (int 51) (int 0) None (Some (int 1)) None)
    as (Hkey & _ & _ & Hparams & _);
    [discriminate|].
  by split.
Defined.

Lemma getNearEarthObjects_key_witness :
  getNearEarthObjects_cacheKey "2024-01-01" "2024-01-07"
    ≠ getNearEarthObjects_cacheKey "2024-01-01" "2024-01-08".
Proof.
  intros Heq.
  apply (@getNearEarthObjects_key host (collaborators [] [])) in Heq as [_ Hend];
    [discriminate Hend | reflexivity..].
Defined.

Lemma getDONKIEvents_endpoint_witness :
  @eventType host "../admin" ∈ allow_list.
Proof.
  apply (@getDONKIEvents_endpoint host (collaborators [] []) "../admin" "" "").
  exact sample_upper_case.
Defined.

Lemma getDONKIEvents_unknown_is_FLR_witness :
  @getDONKIEvents host (collaborators [] []) "flare" "2024-01-01" "2024-01-07"
    = @getSolarFlares host (collaborators [] []) "2024-01-01" "2024-01-07".
Proof.
  apply (@getDONKIEvents_unknown_is_FLR host (collaborators [] []));
    [exact sample_upper_case | reflexivity |].
  change (@toUpperCase host "flare") with "FLARE". unfold allow_list.
  intros Hin.
  repeat (apply elem_of_cons in Hin as [Heq|Hin]; [discriminate Heq|]).
  by apply elem_of_nil in Hin.
Defined.

Lemma getDONKIEvents_key_witness :
  @getDONKIEvents_cacheKey host "cme" "2024-01-01" "2024-01-07"
    ≠ @getDONKIEvents_cacheKey host "gst" "2024-01-01" "2024-01-07".
Proof.
  intros Heq.
  apply (@getDONKIEvents_key host (collaborators [] [])) in Heq as [Htype _];
    [vm_compute in Htype; discriminate Htype | exact sample_upper_case | reflexivity..].
Defined.

(** The southern hemisphere fails: the summary fails although its four
    direct fetches are answered. *)
Lemma getSpaceWeatherSummary_over_five_fetches_witness :
  ∃ r w',
    @getSpaceWeatherSummary host (collaborators ["aurora-south"] []) 0%Z
      = (Fulfilled r, w') ∧
    success r ≠ true.
Proof.
  edestruct (@getSpaceWeatherSummary_over_five_fetches host
               (collaborators ["aurora-south"] []) 0%Z)
    as (r & w' & Hrun & Hiff & _); [reflexivity..|].
  exists r, w'. split; [exact Hrun|].
  intros Hok. apply Hiff in Hok as (_ & _ & _ & Hsouth & _). discriminate Hsouth.
Defined.

Lemma loading_screen_ends_witness :
  let st := run (calls (healthy full_position)) (tick offline (@initial host)) in
  loading st = false ∧ @render host formatting st ≠ Fulfilled LoadingView.
Proof.
  apply (@loading_screen_ends host formatting offline initial
           (calls (healthy full_position))).
  apply calls_emitted.
Defined.

Lemma crew_is_on_the_ISS_witness :
  Forall (λ a, prop a "craft" = VStr "ISS")
    (astronauts (run (calls (serve (Fulfilled (position_body full_position))
                                   (Fulfilled crew_body)))
                     (@initial host))).
Proof.
  apply (@crew_is_on_the_ISS host); [apply calls_emitted | constructor].
Defined.

Lemma position_moves_before_the_crew_fails_witness :
  let fetch := serve (Fulfilled (position_body full_position))
                     (Rejected (VStr "Failed to fetch")) in
  position (tick fetch initial) = full_position ∧
  error (tick fetch initial) = Some load_failure.
Proof.
  intros fetch.
  destruct (@position_moves_before_the_crew_fails host fetch initial
              _ _ _ eq_refl eq_refl eq_refl eq_refl) as (Hpos & _ & Herr & _).
  by split.
Defined.

Lemma crew_is_the_filtered_people_witness :
  let fetch := serve (Fulfilled (position_body full_position)) (Fulfilled crew_body) in
  astronauts (tick fetch initial)
    = [VObj [("name", VStr "Ada Lovelace"); ("craft", VStr "ISS")]].
Proof.
  intros fetch.
  destruct (@crew_is_the_filtered_people host fetch initial _ _ _ _ two_crews
              eq_refl eq_refl eq_refl eq_refl eq_refl eq_refl eq_refl eq_refl)
    as (Hcrew & _ & _).
  exact Hcrew.
Defined.

(** Offline once, back online after: still the error screen. *)
Lemma error_screen_stays_witness :
  @render host formatting
    (run (calls (healthy full_position)) (tick offline initial))
    = Fulfilled (ErrorView load_failure).
Proof.
  apply (@error_screen_stays host formatting offline initial);
    [reflexivity | apply calls_emitted].
Defined.

(** A full position and a named crew are shown. *)
Lemma render_main_witness :
  let fetch := serve (Fulfilled (position_body full_position)) (Fulfilled crew_body) in
  ∃ card rows under_map,
    @render host formatting (tick fetch initial)
      = Fulfilled (MainView card 1 rows under_map).
Proof.
  intros fetch.
  destruct (@render_main host formatting (tick fetch initial) eq_refl eq_refl)
    as (card & rows & under_map & Hview & _).
  by exists card, rows, under_map.
Defined.

(** A position whose timestamp is an object with a [toString] of its own:
    the multiplication throws. *)
Example render_throws_on_an_unconvertible_timestamp :
  let position : @value host :=
    VObj [("latitude", @VNum host (int 51)); ("longitude", @VNum host (int 0));
          ("altitude", @VNum host (int 408)); ("velocity", @VNum host (int 8));
          ("timestamp", VObj [("toString", @VNum host (int 1))])] in
  @render host formatting (tick (healthy position) initial) = Rejected TypeError.
Proof. reflexivity. Qed.

(** A position without altitude and velocity: building the view throws. *)
Example render_throws_on_a_partial_position :
  @render host formatting (tick (healthy a_position) initial) = Rejected TypeError.
Proof. reflexivity. Qed.

(** What the sample page shows for a full position and the crew. *)
Example render_sample :
  let fetch := serve (Fulfilled (position_body full_position)) (Fulfilled crew_body) in
  @render host formatting (tick fetch initial)
    = Fulfilled (MainView
        (Shown {| latitude := "51.0000"; longitude := "0.0000"; altitude := "408.00";
                  velocity := "8.00"; updated := "01:01:01" |})
        1
        [{| row_initials := "AL"; row_name := VStr "Ada Lovelace";
            row_craft := VStr "ISS" |}]
        (Shown {| caption_latitude := "51.00"; caption_longitude := "0.00" |})).
Proof. vm_compute. reflexivity. Qed.

Lemma initials_shape_witness :
  initials "Sunita  Williams" = "SW" ∧ initials "Cher" = "C".
Proof.
  split; [reflexivity|].
  by apply (initials_shape "Cher").
Defined.

End MoreRuns.
